(** * ADCS simulation: the sensor/actuator factory and the stepping engine

    A shallow embedding of [SensorActuatorFactory.cpp] and of the parts of
    [ConfigurationSingleton.hpp] it reads, followed by a model of the
    actuator integration step and of the simulation scheduler.

    - C++ [float] is IEEE binary32, taken from the Standard Library's
      [SpecFloat] at precision 24 and maximal exponent 128.
    - [std::shared_ptr<T>] to an immutable object is [option T]; [None] is
      the null pointer.
    - [std::unordered_map<std::string, V>] is [gmap string V]; its
      [operator[]] inserts a value-initialised entry for a missing key.
    - The [Configuration] singleton is the global state; every function that
      reaches it takes the state and returns the state it leaves behind. *)

From Stdlib Require Import ZArith QArith Lia Lqa.
From Stdlib Require Import Floats.SpecFloat.
From stdpp Require Import gmap strings.

Local Open Scope Z_scope.

(** ** Numbers and small structures *)

Module Float32.
Definition prec : Z := 24.
Definition emax : Z := 128.

Definition float : Type := spec_float.

(** The value of a literal [n.0f]: the integer [n] rounded to the nearest
    binary32 number, ties to even. *)
Definition lit (n : Z) : float := binary_normalize prec emax n 0 false.

(** Unary minus. *)
Definition neg (f : float) : float := SFopp f.

(** The integer a float stands for, when it stands for one. *)
Definition to_Z (f : float) : option Z :=
  match f with
  | S754_zero _ => Some 0
  | S754_finite s m e =>
      let sign := if s then -1 else 1 in
      if 0 <=? e then Some (sign * (Z.pos m * 2 ^ e))
      else if Z.pos m mod 2 ^ (- e) =? 0 then Some (sign * (Z.pos m / 2 ^ (- e)))
      else None
  | _ => None
  end.
End Float32.

Abbreviation float := Float32.float.

(** [Eigen::Vector3f]. *)
Record Vector3f := { vx : float; vy : float; vz : float }.

(** Modelled from the spec: class [timestamp] is declared in
    sim_interface.hpp, which is not among the sources.  A timestamp is
    represented by the argument its constructor was called with: an [int]
    for sensors, a [float] for reaction wheels and for the literals. *)
Inductive timestamp :=
| timestamp_of_int (ms : Z)
| timestamp_of_float (t : float).

(** Modelled from the spec: the enumerations [SensorType] and [ActuatorType]
    are declared in CommonStructs.hpp, which is not among the sources.  The
    factory names the enumerators [Accelerometer], [Gyroscope] and
    [ReactionWheel]; the spec leaves both sets open ("type ∈ {Gyroscope,
    Accelerometer, …}"), so every other value a tag can hold is [Unlisted]. *)
Module SensorType.
Inductive t := Accelerometer | Gyroscope | Unlisted (tag : Z).
End SensorType.

Module ActuatorType.
Inductive t := ReactionWheel | Unlisted (tag : Z).
End ActuatorType.

(** ** Configuration records (ConfigurationSingleton.hpp) *)

Module SensorConfig.
Record t := {
  pollingTime : Z;
  type : SensorType.t;
  position : Vector3f
}.
End SensorConfig.

Module ReactionWheelConfig.
(** The fields [ReactionWheelConfig] adds to its base [ActuatorConfig]. *)
Record t := {
  momentOfInertia : float;
  maxAngVel : float;
  maxAngAccel : float;
  minAngVel : float;
  minAngAccel : float;
  pollingTime : float;
  position : Vector3f;
  axisOfRotation : Vector3f;
  velocity : float;
  acceleration : float
}.
End ReactionWheelConfig.

Module ActuatorConfig.
(** An object reached through a [shared_ptr<ActuatorConfig>]: its [type]
    field, which is public and assignable, and its dynamic class, which is
    either [ReactionWheelConfig] or not.  The two are independent in the
    type system of the source. *)
Inductive t :=
| Base (type : ActuatorType.t)
| ReactionWheel (type : ActuatorType.t) (fields : ReactionWheelConfig.t).

Definition type (c : t) : ActuatorType.t :=
  match c with
  | Base ty => ty
  | ReactionWheel ty _ => ty
  end.

(** [dynamic_cast<const ReactionWheelConfig*>(actu.get())]: null when the
    object is not a [ReactionWheelConfig]. *)
Definition dynamic_cast_ReactionWheelConfig (c : t) : option ReactionWheelConfig.t :=
  match c with
  | Base _ => None
  | ReactionWheel _ fields => Some fields
  end.

Definition is_ReactionWheelConfig (c : t) : bool :=
  match c with
  | Base _ => false
  | ReactionWheel _ _ => true
  end.
End ActuatorConfig.

Abbreviation shared_ptr := option (only parsing).

(** [std::unordered_map::operator[]]: the mapped value, after inserting a
    value-initialised one when the key is missing.  A [gmap] holds the
    entries of the hash map, its keys and its size; the order in which the
    hash map enumerates them is not modelled. *)
Definition map_index {V : Type} (dflt : V) (m : gmap string V) (key : string)
  : V * gmap string V :=
  match m !! key with
  | Some v => (v, m)
  | None => (dflt, <[key := dflt]> m)
  end.

(** The members of the [Configuration] singleton that the factory and the
    scheduler read; the satellite body and the controller targets are not
    touched by any function below. *)
Record Configuration := {
  sensorConfigs : gmap string (shared_ptr SensorConfig.t);
  actuatorConfigs : gmap string (shared_ptr ActuatorConfig.t);
  timestepInMilliSeconds : Z;
  timeoutInMilliseconds : Z;
  useVariableTimestep : bool;
  timeStepMax : float;
  timeStepMin : float
}.

Definition set_sensorConfigs (m : gmap string (shared_ptr SensorConfig.t))
  (c : Configuration) : Configuration :=
  {| sensorConfigs := m;
     actuatorConfigs := actuatorConfigs c;
     timestepInMilliSeconds := timestepInMilliSeconds c;
     timeoutInMilliseconds := timeoutInMilliseconds c;
     useVariableTimestep := useVariableTimestep c;
     timeStepMax := timeStepMax c;
     timeStepMin := timeStepMin c |}.

Definition set_actuatorConfigs (m : gmap string (shared_ptr ActuatorConfig.t))
  (c : Configuration) : Configuration :=
  {| sensorConfigs := sensorConfigs c;
     actuatorConfigs := m;
     timestepInMilliSeconds := timestepInMilliSeconds c;
     timeoutInMilliseconds := timeoutInMilliseconds c;
     useVariableTimestep := useVariableTimestep c;
     timeStepMax := timeStepMax c;
     timeStepMin := timeStepMin c |}.

(** [Configuration::GetSensorConfig]: [return sensorConfigs[name];] *)
Definition GetSensorConfig (name : string) (config : Configuration)
  : shared_ptr SensorConfig.t * Configuration :=
  let '(p, m) := map_index None (sensorConfigs config) name in
  (p, set_sensorConfigs m config).

(** [Configuration::GetActuatorConfig]: [return actuatorConfigs[name];] *)
Definition GetActuatorConfig (name : string) (config : Configuration)
  : shared_ptr ActuatorConfig.t * Configuration :=
  let '(p, m) := map_index None (actuatorConfigs config) name in
  (p, set_actuatorConfigs m config).

(** [Configuration::GetSensorConfigs] and [GetActuatorConfigs]: the maps
    themselves. *)
Definition GetSensorConfigs (config : Configuration) := sensorConfigs config.
Definition GetActuatorConfigs (config : Configuration) := actuatorConfigs config.

(** The spec registered under a name, if any: a name that is missing and a
    name that maps to a null pointer both have none. *)
Definition sensor_spec (config : Configuration) (name : string) : option SensorConfig.t :=
  match sensorConfigs config !! name with
  | Some p => p
  | None => None
  end.

Definition actuator_spec (config : Configuration) (name : string) : option ActuatorConfig.t :=
  match actuatorConfigs config !! name with
  | Some p => p
  | None => None
  end.

(** ** Devices (SensorActuatorFactory.cpp) *)

(** [actuator_state], with the four members the factory assigns. *)
Module actuator_state.
Record t := {
  acceleration : float;
  velocity : float;
  position : float;
  time : timestamp
}.
End actuator_state.

(** Modelled from the spec: the classes [Accelerometer], [Gyroscope] and
    [Reaction_wheel] are declared in sim_interface.hpp, which is not among
    the sources.  A constructed device is its class together with the
    arguments the factory passes to its constructor, in the order it passes
    them. *)
Inductive Sensor :=
| Accelerometer (polling_time : timestamp) (position : Vector3f)
| Gyroscope (polling_time : timestamp) (position : Vector3f).

Inductive Actuator :=
| Reaction_wheel (polling_time : timestamp) (position : Vector3f)
    (min max : actuator_state.t) (momentOfInertia : float).

(** How a call ends: it returns, or it reads through a null pointer, which
    is undefined behaviour and the one fatal outcome the factory has. *)
Inductive outcome (A : Type) :=
| Returns (r : A)
| NullDereference.
Arguments Returns {A} r.
Arguments NullDereference {A}.

Definition fatal {A : Type} (o : outcome A) : bool :=
  match o with
  | Returns _ => false
  | NullDereference => true
  end.

Definition GetSensor (name : string) (config : Configuration)
  : outcome (shared_ptr Sensor) * Configuration :=
  let '(sensor, config) := GetSensorConfig name config in
  match sensor with
  | None => (Returns None, config)
  | Some sensor =>
      let ret :=
        match SensorConfig.type sensor with
        | SensorType.Accelerometer =>
            Some (Accelerometer (timestamp_of_int (SensorConfig.pollingTime sensor))
                    (SensorConfig.position sensor))
        | SensorType.Gyroscope =>
            Some (Gyroscope (timestamp_of_int (SensorConfig.pollingTime sensor))
                    (SensorConfig.position sensor))
        | SensorType.Unlisted _ => None
        end in
      (Returns ret, config)
  end.

(** The two bound records the [ReactionWheel] case fills in. *)
Definition reaction_wheel_min (reac : ReactionWheelConfig.t) : actuator_state.t :=
  {| actuator_state.acceleration := ReactionWheelConfig.minAngAccel reac;
     actuator_state.velocity := ReactionWheelConfig.minAngVel reac;
     actuator_state.position := Float32.neg (Float32.lit 100000000000000);
     actuator_state.time := timestamp_of_float (Float32.lit 0) |}.

Definition reaction_wheel_max (reac : ReactionWheelConfig.t) : actuator_state.t :=
  {| actuator_state.acceleration := ReactionWheelConfig.maxAngAccel reac;
     actuator_state.velocity := ReactionWheelConfig.maxAngVel reac;
     actuator_state.position := Float32.lit 10000000000;
     actuator_state.time := timestamp_of_float (Float32.lit 10000000) |}.

Definition GetActuator (name : string) (config : Configuration)
  : outcome (shared_ptr Actuator) * Configuration :=
  let '(actu, config) := GetActuatorConfig name config in
  match actu with
  | None => (Returns None, config)
  | Some actu =>
      match ActuatorConfig.type actu with
      | ActuatorType.ReactionWheel =>
          match ActuatorConfig.dynamic_cast_ReactionWheelConfig actu with
          | None => (NullDereference, config)
          | Some reac =>
              (Returns
                 (Some (Reaction_wheel
                          (timestamp_of_float (ReactionWheelConfig.pollingTime reac))
                          (ReactionWheelConfig.position reac)
                          (reaction_wheel_min reac)
                          (reaction_wheel_max reac)
                          (ReactionWheelConfig.momentOfInertia reac))),
               config)
          end
      | ActuatorType.Unlisted _ => (Returns None, config)
      end
  end.

(** The bounds an actuator was constructed with. *)
Definition min_vals (a : Actuator) : actuator_state.t :=
  match a with Reaction_wheel _ _ mn _ _ => mn end.
Definition max_vals (a : Actuator) : actuator_state.t :=
  match a with Reaction_wheel _ _ _ mx _ => mx end.

(** ** The actuator integration step *)

(** Modelled from the spec: the actuator classes of sim_interface.hpp and
    their integration step are not among the sources.  The definitions of
    this module follow section 4.2 of the specification sentence by
    sentence.  Scalars are exact rationals, stored in lowest terms. *)
Module ActuatorModel.
Local Open Scope Q_scope.

(** A (min, max) pair. *)
Record Bounds := { lower : Q; upper : Q }.

Record ActuatorState := {
  position : Q;
  velocity : Q;
  acceleration : Q;
  time : Q
}.

(** An actuator holds its mutable state and its static bounds. *)
Record Actuator := {
  state : ActuatorState;
  accelerationBounds : Bounds;
  velocityBounds : Bounds
}.

Definition well_formed (b : Bounds) : Prop := lower b <= upper b.

Definition within (b : Bounds) (x : Q) : Prop := lower b <= x /\ x <= upper b.

Definition withinb (b : Bounds) (x : Q) : bool :=
  Qle_bool (lower b) x && Qle_bool x (upper b).

Definition clamp (b : Bounds) (x : Q) : Q :=
  if Qlt_le_dec x (lower b) then lower b
  else if Qlt_le_dec (upper b) x then upper b
  else x.

(** The velocity of step 3 before it is clamped. *)
Definition integrated_velocity (a : Actuator) (at_time commanded : Q) : Q :=
  velocity (state a)
  + clamp (accelerationBounds a) commanded * (at_time - time (state a)).

Definition velocity_clamped (a : Actuator) (at_time commanded : Q) : bool :=
  negb (withinb (velocityBounds a) (integrated_velocity a at_time commanded)).

(** Modelled from the spec: [integrate(at, commanded)], section 4.2.
    + the elapsed time is [at − state.time]; the step fails when it is
      negative;
    + the commanded input is the candidate acceleration, clamped to the
      acceleration bounds;
    + the velocity is [state.velocity + acceleration·Δt], clamped to the
      velocity bounds; if it was clamped, the acceleration is reduced
      towards the one consistent with the clamped velocity,
      [(velocity − state.velocity) / Δt], and stays clamped to the
      acceleration bounds, as the invariant of section 3 has it; over no
      elapsed time nothing is divided and the candidate stands;
    + the position is [state.position + velocity·Δt];
    + the new state is stored with [time = at]. *)
Definition integrate (a : Actuator) (at_time : Q) (commanded : Q) : option Actuator :=
  let dt := at_time - time (state a) in
  if Qlt_le_dec dt 0 then None
  else
    let candidate := clamp (accelerationBounds a) commanded in
    let v := clamp (velocityBounds a) (integrated_velocity a at_time commanded) in
    let realized :=
      if velocity_clamped a at_time commanded && negb (Qeq_bool dt 0)
      then clamp (accelerationBounds a) ((v - velocity (state a)) / dt)
      else candidate in
    Some {| state := {| position := Qred (position (state a) + v * dt);
                        velocity := Qred v;
                        acceleration := Qred realized;
                        time := at_time |};
            accelerationBounds := accelerationBounds a;
            velocityBounds := velocityBounds a |}.

(** A sequence of integration steps, each with its time and its input. *)
Fixpoint integrate_all (calls : list (Q * Q)) (a : Actuator) : option Actuator :=
  match calls with
  | [] => Some a
  | (at_time, commanded) :: calls =>
      match integrate a at_time commanded with
      | Some a' => integrate_all calls a'
      | None => None
      end
  end.

(** [n] steps of length [dt] from time [0] under one sustained input. *)
Definition sustained (n : nat) (dt commanded : Q) : list (Q * Q) :=
  map (fun k => (inject_Z (Z.of_nat k) * dt, commanded)) (seq 1 n).

(** ReactionWheel1 of simulator.yaml: velocity and acceleration in
    [0, 1000], initially at rest with acceleration [1]. *)
Definition wheel : Actuator :=
  {| state := {| position := 0; velocity := 0; acceleration := 1; time := 0 |};
     accelerationBounds := {| lower := 0; upper := 1000 |};
     velocityBounds := {| lower := 0; upper := 1000 |} |}.

(** The wheel one millisecond into a sustained input of [5000]. *)
Definition wheel_after_1ms : Actuator :=
  {| state := {| position := 1 # 1000; velocity := 1; acceleration := 1000;
                 time := 1 # 1000 |};
     accelerationBounds := accelerationBounds wheel;
     velocityBounds := velocityBounds wheel |}.

(** A wheel configured with its minimal velocity above its maximal
    one: no velocity lies within its velocity bounds. *)
Definition inverted : Actuator :=
  {| state := {| position := 0; velocity := 0; acceleration := 0; time := 0 |};
     accelerationBounds := {| lower := 0; upper := 1000 |};
     velocityBounds := {| lower := 1000; upper := 0 |} |}.
End ActuatorModel.

(** ** The simulation clock and scheduler *)

(** Modelled from the spec: the scheduler (class [Simulator]) is not among
    the sources.  The definitions of this module follow section 4.3 of the
    specification.  Times are integers, in milliseconds. *)
Module Scheduler.
Inductive RunState := Idle | Running | TimedOut | Stopped.
Inductive Mode := Fixed | Adaptive.

Record ClockState := {
  currentTime : Z;
  mode : Mode;
  stepMax : Z;
  stepMin : Z;
  timeout : Z
}.

(** A sensor is state-free between samples; an actuator carries its
    state and bounds. *)
Inductive Body :=
| SensorBody
| ActuatorBody (a : ActuatorModel.Actuator).

Record Device := {
  name : string;
  pollingInterval : Z;
  lastPollTime : Z;
  body : Body
}.

(** The emitted stream: (time, sensor reading) and (time, actuator
    state), each with the device it comes from. *)
Inductive Event (Reading : Type) :=
| SensorReading (t : Z) (device : string) (r : Reading)
| ActuatorUpdate (t : Z) (device : string) (st : ActuatorModel.ActuatorState).
Arguments SensorReading {Reading} t device r.
Arguments ActuatorUpdate {Reading} t device st.

Definition event_time {Reading : Type} (e : Event Reading) : Z :=
  match e with
  | SensorReading t _ _ => t
  | ActuatorUpdate t _ _ => t
  end.

Definition event_device {Reading : Type} (e : Event Reading) : string :=
  match e with
  | SensorReading _ d _ => d
  | ActuatorUpdate _ d _ => d
  end.

(** The scheduler owns the clock; [timeStep] is the configured constant
    step of the fixed mode. *)
Record Sched := {
  status : RunState;
  clock : ClockState;
  timeStep : Z;
  runStartTime : Z;
  devices : list Device
}.

(** What a tick receives from outside: the step of the run's Δt sequence
    (read in adaptive mode only), a stop request, and the input commanded
    to each actuator. *)
Record Input := {
  delta : Z;
  stop : bool;
  command : string -> Q
}.

Definition deadline (d : Device) : Z := lastPollTime d + pollingInterval d.

(** The deadline was reached: [now − lastPollTime ≥ pollingInterval]. *)
Definition due (now : Z) (d : Device) : bool := deadline d <=? now.

(** The constant step in fixed mode; in adaptive mode a step within
    [[stepMin, stepMax]], and none when the step offered is outside. *)
Definition stepSize (s : Sched) (i : Input) : option Z :=
  match mode (clock s) with
  | Fixed => Some (timeStep s)
  | Adaptive =>
      if (stepMin (clock s) <=? delta i) && (delta i <=? stepMax (clock s))
      then Some (delta i) else None
  end.

(** [min(currentTime + stepSize, min over all devices of (lastPollTime +
    pollingInterval))]. *)
Definition nextEventTime (s : Sched) (step : Z) : Z :=
  foldr Z.min (currentTime (clock s) + step) (map deadline (devices s)).

Definition timed_out (s : Sched) : bool :=
  timeout (clock s) <=? currentTime (clock s) - runStartTime s.

Definition set_status (st : RunState) (s : Sched) : Sched :=
  {| status := st; clock := clock s; timeStep := timeStep s;
     runStartTime := runStartTime s; devices := devices s |}.

Definition set_time (now : Z) (c : ClockState) : ClockState :=
  {| currentTime := now; mode := mode c; stepMax := stepMax c;
     stepMin := stepMin c; timeout := timeout c |}.

Definition advance (now : Z) (ds : list Device) (s : Sched) : Sched :=
  {| status := status s; clock := set_time now (clock s); timeStep := timeStep s;
     runStartTime := runStartTime s; devices := ds |}.

(** Idle → Running on start. *)
Definition start (s : Sched) : Sched :=
  match status s with
  | Idle =>
      {| status := Running; clock := clock s; timeStep := timeStep s;
         runStartTime := currentTime (clock s); devices := devices s |}
  | _ => s
  end.

Definition polled (now : Z) (b : Body) (d : Device) : Device :=
  {| name := name d; pollingInterval := pollingInterval d;
     lastPollTime := now; body := b |}.

Section Engine.
Context {Reading : Type}.

(** [sample(at)] of the sensor of a given name; it is a function, as the
    spec has it pure. *)
Variable sample : string -> Z -> Reading.

(** A device whose deadline was reached is sampled or integrated and its
    output recorded; any other device is left alone.  A failing
    integration step fails the tick. *)
Definition poll (now : Z) (cmd : string -> Q) (d : Device)
  : option (Device * list (Event Reading)) :=
  if due now d then
    match body d with
    | SensorBody =>
        Some (polled now SensorBody d,
              [SensorReading now (name d) (sample (name d) now)])
    | ActuatorBody a =>
        match ActuatorModel.integrate a (inject_Z now) (cmd (name d)) with
        | Some a' =>
            Some (polled now (ActuatorBody a') d,
                  [ActuatorUpdate now (name d) (ActuatorModel.state a')])
        | None => None
        end
    end
  else Some (d, []).

Fixpoint poll_all (now : Z) (cmd : string -> Q) (ds : list Device)
  : option (list Device * list (Event Reading)) :=
  match ds with
  | [] => Some ([], [])
  | d :: ds =>
      match poll now cmd d with
      | Some (d', evs) =>
          match poll_all now cmd ds with
          | Some (ds', evs') => Some (d' :: ds', evs ++ evs')
          | None => None
          end
      | None => None
      end
  end.

(** Modelled from the spec: one tick of the state machine of section
    4.3.  Time advances in [Running] only; a run that has used up its
    timeout becomes [TimedOut], otherwise a stop request makes it
    [Stopped], otherwise the clock moves to the next event time and the
    devices due then are polled.  [None] is a fatal failure; [TimedOut]
    and [Stopped] are states the caller reads. *)
Definition tick (i : Input) (s : Sched) : option (Sched * list (Event Reading)) :=
  match status s with
  | Running =>
      if timed_out s then Some (set_status TimedOut s, [])
      else if stop i then Some (set_status Stopped s, [])
      else
        match stepSize s i with
        | Some step =>
            let now := nextEventTime s step in
            match poll_all now (command i) (devices s) with
            | Some (ds, evs) => Some (advance now ds s, evs)
            | None => None
            end
        | None => None
        end
  | _ => Some (s, [])
  end.

Fixpoint run (inputs : list Input) (s : Sched)
  : option (Sched * list (Event Reading)) :=
  match inputs with
  | [] => Some (s, [])
  | i :: inputs =>
      match tick i s with
      | Some (s', evs) =>
          match run inputs s' with
          | Some (s'', evs') => Some (s'', evs ++ evs')
          | None => None
          end
      | None => None
      end
  end.

(** Modelled from the spec: the same state machine as a transition
    relation, one rule per transition of section 4.3. *)
Inductive step (i : Input) (s : Sched) : list (Event Reading) -> Sched -> Prop :=
| step_halted :
    status s <> Running ->
    step i s [] s
| step_timeout :
    status s = Running ->
    timeout (clock s) <= currentTime (clock s) - runStartTime s ->
    step i s [] (set_status TimedOut s)
| step_stop :
    status s = Running ->
    currentTime (clock s) - runStartTime s < timeout (clock s) ->
    stop i = true ->
    step i s [] (set_status Stopped s)
| step_advance size ds evs :
    status s = Running ->
    currentTime (clock s) - runStartTime s < timeout (clock s) ->
    stop i = false ->
    stepSize s i = Some size ->
    poll_all (nextEventTime s size) (command i) (devices s) = Some (ds, evs) ->
    step i s evs (advance (nextEventTime s size) ds s).
End Engine.

(** A fixed-mode clock at time [0]. *)
Definition fixed_clock (timeStep timeout : Z) : ClockState :=
  {| currentTime := 0; mode := Fixed; stepMax := timeStep; stepMin := timeStep;
     timeout := timeout |}.

Definition create (c : ClockState) (timeStep : Z) (ds : list Device) : Sched :=
  {| status := Idle; clock := c; timeStep := timeStep;
     runStartTime := currentTime c; devices := ds |}.

(** A tick with no stop request and no commanded input. *)
Definition quiet : Input :=
  {| delta := 0; stop := false; command := fun _ => 0%Q |}.

(** Gyro1 of simulator.yaml, with its polling time. *)
Definition gyro (P : Z) : Device :=
  {| name := "Gyro1"; pollingInterval := P; lastPollTime := 0; body := SensorBody |}.

(** One gyroscope polled every 10 ms under a fixed step of 1 ms, started
    at time [0] with the given timeout. *)
Definition gyro_run (timeout : Z) : Sched :=
  start (create (fixed_clock 1 timeout) 1 [gyro 10]).

(** That run with [t] on its clock and the gyroscope last polled at
    [last]. *)
Definition gyro_at (t last timeout : Z) : Sched :=
  advance t [polled last SensorBody (gyro 10)] (gyro_run timeout).

(** A sensor that reads the time it is sampled at. *)
Definition clock_reading (device : string) (t : Z) : Z := t.

(** What a run shows from outside: the state it ends in, the time on its
    clock, and the times of the events it emitted. *)
Definition summary {Reading : Type} (r : option (Sched * list (Event Reading)))
  : option (RunState * Z * list Z) :=
  match r with
  | Some (s, evs) => Some (status s, currentTime (clock s), map event_time evs)
  | None => None
  end.
End Scheduler.

(** ** Sample configurations *)

Definition zero3 : Vector3f :=
  {| vx := Float32.lit 0; vy := Float32.lit 0; vz := Float32.lit 0 |}.

Definition empty_configuration : Configuration :=
  {| sensorConfigs := ∅;
     actuatorConfigs := ∅;
     timestepInMilliSeconds := 1;
     timeoutInMilliseconds := 10;
     useVariableTimestep := false;
     timeStepMax := Float32.lit 50;
     timeStepMin := Float32.lit 1 |}.

(** simulator.yaml: Gyro1, Accel1 and ReactionWheel1. *)
Definition Gyro1 : SensorConfig.t :=
  {| SensorConfig.pollingTime := 10;
     SensorConfig.type := SensorType.Gyroscope;
     SensorConfig.position := zero3 |}.

Definition Accel1 : SensorConfig.t :=
  {| SensorConfig.pollingTime := 10;
     SensorConfig.type := SensorType.Accelerometer;
     SensorConfig.position := zero3 |}.

Definition ReactionWheel1 : ReactionWheelConfig.t :=
  {| ReactionWheelConfig.momentOfInertia := Float32.lit 1;
     ReactionWheelConfig.maxAngVel := Float32.lit 1000;
     ReactionWheelConfig.maxAngAccel := Float32.lit 1000;
     ReactionWheelConfig.minAngVel := Float32.lit 0;
     ReactionWheelConfig.minAngAccel := Float32.lit 0;
     ReactionWheelConfig.pollingTime := Float32.lit 10;
     ReactionWheelConfig.position := zero3;
     ReactionWheelConfig.axisOfRotation :=
       {| vx := Float32.lit 0; vy := Float32.lit 0; vz := Float32.lit 1 |};
     ReactionWheelConfig.velocity := Float32.lit 0;
     ReactionWheelConfig.acceleration := Float32.lit 1 |}.

Definition simulator_yaml : Configuration :=
  {| sensorConfigs :=
       <["Gyro1"%string := Some Gyro1]> (<["Accel1"%string := Some Accel1]> ∅);
     actuatorConfigs :=
       <["ReactionWheel1"%string :=
           Some (ActuatorConfig.ReactionWheel ActuatorType.ReactionWheel ReactionWheel1)]> ∅;
     timestepInMilliSeconds := 1;
     timeoutInMilliseconds := 10;
     useVariableTimestep := false;
     timeStepMax := Float32.lit 50;
     timeStepMin := Float32.lit 1 |}.

(** A store whose entries carry tags the factory has no case for, and one
    whose entry is tagged [ReactionWheel] without being a
    [ReactionWheelConfig]. *)
Definition odd_sensor : SensorConfig.t :=
  {| SensorConfig.pollingTime := 10;
     SensorConfig.type := SensorType.Unlisted 7;
     SensorConfig.position := zero3 |}.

Definition odd_actuator : ActuatorConfig.t :=
  ActuatorConfig.ReactionWheel (ActuatorType.Unlisted 7) ReactionWheel1.

Definition odd_configuration : Configuration :=
  set_actuatorConfigs (<["Odd"%string := Some odd_actuator]> ∅)
    (set_sensorConfigs (<["Odd"%string := Some odd_sensor]> ∅) empty_configuration).

Definition mistagged_configuration : Configuration :=
  set_actuatorConfigs
    (<["Wheel"%string := Some (ActuatorConfig.Base ActuatorType.ReactionWheel)]> ∅)
    empty_configuration.

(** Every stored object tagged [ReactionWheel] is a [ReactionWheelConfig]. *)
Definition tag_matches_class (entry : string * shared_ptr ActuatorConfig.t) : bool :=
  match entry.2 with
  | Some a =>
      match ActuatorConfig.type a with
      | ActuatorType.ReactionWheel => ActuatorConfig.is_ReactionWheelConfig a
      | ActuatorType.Unlisted _ => true
      end
  | None => true
  end.

Definition tags_match_classes (config : Configuration) : bool :=
  forallb tag_matches_class (map_to_list (actuatorConfigs config)).

(** ** Sequences of factory calls *)

(** One call to the factory, and what it hands back. *)
Inductive FactoryCall :=
| CallGetSensor (name : string)
| CallGetActuator (name : string).

Inductive Built :=
| BuiltSensor (r : outcome (shared_ptr Sensor))
| BuiltActuator (r : outcome (shared_ptr Actuator)).

Definition built_fatal (b : Built) : bool :=
  match b with
  | BuiltSensor r => fatal r
  | BuiltActuator r => fatal r
  end.

Definition call (c : FactoryCall) (config : Configuration) : Built * Configuration :=
  match c with
  | CallGetSensor name =>
      let '(r, config) := GetSensor name config in (BuiltSensor r, config)
  | CallGetActuator name =>
      let '(r, config) := GetActuator name config in (BuiltActuator r, config)
  end.

(** Calls made one after the other on the singleton; nothing follows a call
    that read through a null pointer. *)
Fixpoint calls (cs : list FactoryCall) (config : Configuration)
  : list Built * Configuration :=
  match cs with
  | [] => ([], config)
  | c :: cs =>
      let '(b, config) := call c config in
      if built_fatal b then ([b], config)
      else let '(bs, config) := calls cs config in (b :: bs, config)
  end.

(** ** The constructors of the sensor configurations *)

(** The four operations of yaml-cpp the constructor of [SensorConfig] uses.
    yaml-cpp is a library outside the repository, so the operations are an
    interface: [node[key]] on a constant node, [as<int>()], [as<float>()]
    and the nodes a range-based [for] visits.  [None] stands for a thrown
    exception. *)
Class YamlNode (Node : Type) := {
  subscript : Node → string → option Node;
  as_int : Node → option Z;
  as_float : Node → option float;
  children : Node → list Node
}.

(** How a constructor ends: with the object, with an exception, or with a
    write to a coefficient the fixed-size vector does not have. *)
Inductive construction (A : Type) :=
| Constructed (a : A)
| Throws
| IndexOutOfRange (j : Z).
Arguments Constructed {A} a.
Arguments Throws {A}.
Arguments IndexOutOfRange {A} j.

(** [position(j) = x] on an [Eigen::Vector3f]: coefficients 0, 1 and 2. *)
Definition Vector3f_assign (v : Vector3f) (j : Z) (x : float) : option Vector3f :=
  match j with
  | 0 => Some {| vx := x; vy := vy v; vz := vz v |}
  | 1 => Some {| vx := vx v; vy := x; vz := vz v |}
  | 2 => Some {| vx := vx v; vy := vy v; vz := x |}
  | _ => None
  end.

Section SensorConfigConstructors.
Context {Node : Type} `{YamlNode Node}.

(** [for (const auto &n : node["Position"]) { position(j++) = n.as<float>(); }]
    from the [j] and the vector reached so far; the right operand of the
    assignment is evaluated first. *)
Fixpoint fill_position (ns : list Node) (j : Z) (position : Vector3f)
  : construction Vector3f :=
  match ns with
  | [] => Constructed position
  | n :: ns =>
      match as_float n with
      | None => Throws
      | Some x =>
          match Vector3f_assign position j x with
          | None => IndexOutOfRange j
          | Some position => fill_position ns (j + 1) position
          end
      end
  end.

(** [SensorConfig::SensorConfig(SensorType t, const YAML::Node &node)].
    The vector member is not initialised before the loop: [uninitialised]
    is what its storage holds when the body starts. *)
Definition new_SensorConfig (uninitialised : Vector3f) (t : SensorType.t) (node : Node)
  : construction SensorConfig.t :=
  match subscript node "PollingTime" with
  | None => Throws
  | Some polling =>
      match as_int polling with
      | None => Throws
      | Some pollingTime =>
          match subscript node "Position" with
          | None => Throws
          | Some entries =>
              match fill_position (children entries) 0 uninitialised with
              | Constructed position =>
                  Constructed {| SensorConfig.pollingTime := pollingTime;
                                 SensorConfig.type := t;
                                 SensorConfig.position := position |}
              | Throws => Throws
              | IndexOutOfRange j => IndexOutOfRange j
              end
          end
      end
  end.

(** [GyroConfig::GyroConfig(const YAML::Node &node)] *)
Definition GyroConfig (uninitialised : Vector3f) (node : Node) : construction SensorConfig.t :=
  new_SensorConfig uninitialised SensorType.Gyroscope node.

(** [AccelerometerConfig::AccelerometerConfig(const YAML::Node &node)] *)
Definition AccelerometerConfig (uninitialised : Vector3f) (node : Node)
  : construction SensorConfig.t :=
  new_SensorConfig uninitialised SensorType.Accelerometer node.

(** The floats a list of nodes converts to, when all of them convert. *)
Fixpoint as_floats (ns : list Node) : option (list float) :=
  match ns with
  | [] => Some []
  | n :: ns =>
      match as_float n, as_floats ns with
      | Some x, Some xs => Some (x :: xs)
      | _, _ => None
      end
  end.
End SensorConfigConstructors.

(** The vector whose leading coefficients are the given floats and whose
    other coefficients are those of [v]. *)
Definition overwrite (v : Vector3f) (xs : list float) : Vector3f :=
  {| vx := default (vx v) (xs !! 0%nat);
     vy := default (vy v) (xs !! 1%nat);
     vz := default (vz v) (xs !! 2%nat) |}.

(** A document tree to run the constructors on. *)
#[warnings="-register-all"]
Inductive Yaml :=
| YUndefined
| YInt (n : Z)
| YText (s : string)
| YSeq (items : list Yaml)
| YMap (entries : list (string * Yaml)).

Definition Yaml_subscript (node : Yaml) (key : string) : option Yaml :=
  match node with
  | YMap entries =>
      match find (λ e, String.eqb e.1 key) entries with
      | Some e => Some e.2
      | None => Some YUndefined
      end
  | YUndefined => Some YUndefined
  | _ => None
  end.

(** [as<int>()] converts what fits a 32-bit [int] and throws on the rest;
    [as<float>()] converts what has a finite binary32 value. *)
Definition Yaml_as_int (node : Yaml) : option Z :=
  match node with
  | YInt n => if (-2147483648 <=? n) && (n <=? 2147483647) then Some n else None
  | _ => None
  end.

Definition Yaml_as_float (node : Yaml) : option float :=
  match node with
  | YInt n =>
      match Float32.lit n with
      | S754_zero s => Some (S754_zero s)
      | S754_finite s m e => Some (S754_finite s m e)
      | _ => None
      end
  | _ => None
  end.

Definition Yaml_children (node : Yaml) : list Yaml :=
  match node with YSeq items => items | _ => [] end.

#[export] Instance Yaml_node : YamlNode Yaml :=
  {| subscript := Yaml_subscript;
     as_int := Yaml_as_int;
     as_float := Yaml_as_float;
     children := Yaml_children |}.

(** The entry [Gyro1] of simulator.yaml; one with a position of two
    coefficients; one with four. *)
Definition Gyro1_node : Yaml :=
  YMap [("type"%string, YText "Gyroscope"); ("PollingTime"%string, YInt 10);
        ("Position"%string, YSeq [YInt 0; YInt 0; YInt 0])].

Definition short_node : Yaml :=
  YMap [("PollingTime"%string, YInt 10); ("Position"%string, YSeq [YInt 1; YInt 2])].

Definition long_node : Yaml :=
  YMap [("PollingTime"%string, YInt 10);
        ("Position"%string, YSeq [YInt 1; YInt 2; YInt 3; YInt 4])].

Definition ones3 : Vector3f :=
  {| vx := Float32.lit 1; vy := Float32.lit 1; vz := Float32.lit 1 |}.

(** ** The configuration lookups *)

Section Lookups.
Variable name : string.
Variable config : Configuration.

Lemma GetSensorConfig_value :
  (GetSensorConfig name config).1 = sensor_spec config name.
Proof.
  unfold GetSensorConfig, sensor_spec, map_index.
  destruct (sensorConfigs config !! name); reflexivity.
Qed.

Lemma GetActuatorConfig_value :
  (GetActuatorConfig name config).1 = actuator_spec config name.
Proof.
  unfold GetActuatorConfig, actuator_spec, map_index.
  destruct (actuatorConfigs config !! name); reflexivity.
Qed.

Lemma set_sensorConfigs_same : set_sensorConfigs (sensorConfigs config) config = config.
Proof. destruct config; reflexivity. Qed.

Lemma set_actuatorConfigs_same :
  set_actuatorConfigs (actuatorConfigs config) config = config.
Proof. destruct config; reflexivity. Qed.

(** A key that is present is only read. *)
Lemma GetSensorConfig_present :
  is_Some (sensorConfigs config !! name) → (GetSensorConfig name config).2 = config.
Proof.
  intros [p Hp]. unfold GetSensorConfig, map_index. rewrite Hp. simpl.
  apply set_sensorConfigs_same.
Qed.

Lemma GetActuatorConfig_present :
  is_Some (actuatorConfigs config !! name) → (GetActuatorConfig name config).2 = config.
Proof.
  intros [p Hp]. unfold GetActuatorConfig, map_index. rewrite Hp. simpl.
  apply set_actuatorConfigs_same.
Qed.

(** A key that is missing is added, mapped to a null pointer. *)
Lemma GetSensorConfig_missing :
  sensorConfigs config !! name = None →
  (GetSensorConfig name config).2
  = set_sensorConfigs (<[name := None]> (sensorConfigs config)) config.
Proof. intros Hp. unfold GetSensorConfig, map_index. rewrite Hp. reflexivity. Qed.

Lemma GetActuatorConfig_missing :
  actuatorConfigs config !! name = None →
  (GetActuatorConfig name config).2
  = set_actuatorConfigs (<[name := None]> (actuatorConfigs config)) config.
Proof. intros Hp. unfold GetActuatorConfig, map_index. rewrite Hp. reflexivity. Qed.

(** The factory touches the store through the lookup and nowhere else. *)
Lemma GetSensor_state : (GetSensor name config).2 = (GetSensorConfig name config).2.
Proof.
  unfold GetSensor. destruct (GetSensorConfig name config) as [[s|] c]; reflexivity.
Qed.

Lemma GetActuator_state : (GetActuator name config).2 = (GetActuatorConfig name config).2.
Proof.
  unfold GetActuator. destruct (GetActuatorConfig name config) as [[a|] c]; [|reflexivity].
  destruct (ActuatorConfig.type a); [|reflexivity].
  destruct (ActuatorConfig.dynamic_cast_ReactionWheelConfig a); reflexivity.
Qed.

(** What the factory returns, by the spec found under the name. *)
Lemma GetSensor_result :
  (GetSensor name config).1
  = match sensor_spec config name with
    | None => Returns None
    | Some sensor =>
        Returns
          match SensorConfig.type sensor with
          | SensorType.Accelerometer =>
              Some (Accelerometer (timestamp_of_int (SensorConfig.pollingTime sensor))
                      (SensorConfig.position sensor))
          | SensorType.Gyroscope =>
              Some (Gyroscope (timestamp_of_int (SensorConfig.pollingTime sensor))
                      (SensorConfig.position sensor))
          | SensorType.Unlisted _ => None
          end
    end.
Proof.
  rewrite <- GetSensorConfig_value. unfold GetSensor.
  destruct (GetSensorConfig name config) as [[s|] c]; reflexivity.
Qed.

Lemma GetActuator_result :
  (GetActuator name config).1
  = match actuator_spec config name with
    | None => Returns None
    | Some actu =>
        match ActuatorConfig.type actu with
        | ActuatorType.ReactionWheel =>
            match ActuatorConfig.dynamic_cast_ReactionWheelConfig actu with
            | None => NullDereference
            | Some reac =>
                Returns
                  (Some (Reaction_wheel
                           (timestamp_of_float (ReactionWheelConfig.pollingTime reac))
                           (ReactionWheelConfig.position reac)
                           (reaction_wheel_min reac)
                           (reaction_wheel_max reac)
                           (ReactionWheelConfig.momentOfInertia reac)))
            end
        | ActuatorType.Unlisted _ => Returns None
        end
    end.
Proof.
  rewrite <- GetActuatorConfig_value. unfold GetActuator.
  destruct (GetActuatorConfig name config) as [[a|] c]; simpl; [|reflexivity].
  destruct (ActuatorConfig.type a); [|reflexivity].
  destruct (ActuatorConfig.dynamic_cast_ReactionWheelConfig a); reflexivity.
Qed.
End Lookups.

Lemma tags_match_classes_lookup (config : Configuration) (name : string)
  (a : ActuatorConfig.t) :
  tags_match_classes config = true →
  actuator_spec config name = Some a →
  ActuatorConfig.type a = ActuatorType.ReactionWheel →
  ActuatorConfig.is_ReactionWheelConfig a = true.
Proof.
  unfold tags_match_classes, actuator_spec. intros Hall Hspec Hty.
  destruct (actuatorConfigs config !! name) as [p|] eqn:Hp; [|discriminate].
  subst p. rewrite forallb_forall in Hall.
  specialize (Hall (name, Some a)).
  unfold tag_matches_class in Hall. simpl in Hall. rewrite Hty in Hall.
  apply Hall. apply list_elem_of_In. apply elem_of_map_to_list. exact Hp.
Qed.

(** The binary32 numbers the four literals of [GetActuator] denote: three
    are the integers written, [100000000000000.0f] is the nearest float. *)
Example literal_values :
  Float32.to_Z (Float32.neg (Float32.lit 100000000000000)) = Some (-100000000376832)
  ∧ Float32.to_Z (Float32.lit 10000000000) = Some 10000000000
  ∧ Float32.to_Z (Float32.lit 0) = Some 0
  ∧ Float32.to_Z (Float32.lit 10000000) = Some 10000000.
Proof. repeat split. Qed.

(** ** The factory *)

(** C1: for a name under which no sensor (resp. actuator) spec is
    registered, [GetSensor] (resp. [GetActuator]) returns the null pointer;
    the call returns normally and is not fatal. *)
Theorem factory_unregistered_name_returns_null (name : string) (config : Configuration) :
  (sensor_spec config name = None →
   (GetSensor name config).1 = Returns None ∧ fatal (GetSensor name config).1 = false)
  ∧ (actuator_spec config name = None →
     (GetActuator name config).1 = Returns None ∧ fatal (GetActuator name config).1 = false).
Proof.
  split; intros Hnone.
  - rewrite GetSensor_result, Hnone. split; reflexivity.
  - rewrite GetActuator_result, Hnone. split; reflexivity.
Qed.

Lemma factory_unregistered_name_returns_null_witness :
  sensor_spec simulator_yaml "Nobody" = None
  ∧ actuator_spec simulator_yaml "Nobody" = None
  ∧ (GetSensor "Nobody" simulator_yaml).1 = Returns None
  ∧ (GetActuator "Nobody" simulator_yaml).1 = Returns None.
Proof.
  destruct (factory_unregistered_name_returns_null "Nobody" simulator_yaml) as [Hs Ha].
  split; [reflexivity|]. split; [reflexivity|].
  split; [apply Hs; reflexivity | apply Ha; reflexivity].
Defined.

(** A name that is registered is only read: the store is left as it was. *)
Lemma GetSensor_registered_frame (name : string) (config : Configuration) :
  is_Some (sensorConfigs config !! name) → (GetSensor name config).2 = config.
Proof. intros H. rewrite GetSensor_state. by apply GetSensorConfig_present. Qed.

Lemma GetActuator_registered_frame (name : string) (config : Configuration) :
  is_Some (actuatorConfigs config !! name) → (GetActuator name config).2 = config.
Proof. intros H. rewrite GetActuator_state. by apply GetActuatorConfig_present. Qed.

(** A name that is missing is added to the map, with a null pointer. *)
Lemma GetSensor_missing_inserts (name : string) (config : Configuration) :
  sensorConfigs config !! name = None →
  GetSensorConfigs (GetSensor name config).2 = <[name := None]> (sensorConfigs config).
Proof.
  intros H. rewrite GetSensor_state, GetSensorConfig_missing by exact H. reflexivity.
Qed.

Lemma GetActuator_missing_inserts (name : string) (config : Configuration) :
  actuatorConfigs config !! name = None →
  GetActuatorConfigs (GetActuator name config).2 = <[name := None]> (actuatorConfigs config).
Proof.
  intros H. rewrite GetActuator_state, GetActuatorConfig_missing by exact H. reflexivity.
Qed.

(** C3: the factory leaves the global configuration as it found it.  On
    the empty store the call with a fresh name does not: ["Ghost"] is in
    neither map before the call, afterwards the map queried holds it, mapped
    to a null pointer, and has grown from no entry to one. *)
Theorem factory_lookup_of_missing_name_grows_store :
  GetSensorConfigs empty_configuration !! "Ghost"%string = None
  ∧ GetSensorConfigs (GetSensor "Ghost" empty_configuration).2 !! "Ghost"%string = Some None
  ∧ size (GetSensorConfigs (GetSensor "Ghost" empty_configuration).2) = 1%nat
  ∧ (GetSensor "Ghost" empty_configuration).2 ≠ empty_configuration
  ∧ GetActuatorConfigs empty_configuration !! "Ghost"%string = None
  ∧ GetActuatorConfigs (GetActuator "Ghost" empty_configuration).2 !! "Ghost"%string = Some None
  ∧ size (GetActuatorConfigs (GetActuator "Ghost" empty_configuration).2) = 1%nat
  ∧ (GetActuator "Ghost" empty_configuration).2 ≠ empty_configuration.
Proof.
  repeat split; try reflexivity.
  - intros Heq. apply (f_equal (λ c, sensorConfigs c !! "Ghost"%string)) in Heq.
    discriminate Heq.
  - intros Heq. apply (f_equal (λ c, actuatorConfigs c !! "Ghost"%string)) in Heq.
    discriminate Heq.
Qed.

(** C4 as stated fails: a registered spec whose tag the factory has no case
    for makes the call return the null pointer, not end fatally. *)
Lemma unlisted_tag_is_not_fatal :
  sensor_spec odd_configuration "Odd" = Some odd_sensor
  ∧ SensorConfig.type odd_sensor = SensorType.Unlisted 7
  ∧ (GetSensor "Odd" odd_configuration).1 = Returns None
  ∧ fatal (GetSensor "Odd" odd_configuration).1 = false
  ∧ actuator_spec odd_configuration "Odd" = Some odd_actuator
  ∧ ActuatorConfig.type odd_actuator = ActuatorType.Unlisted 7
  ∧ (GetActuator "Odd" odd_configuration).1 = Returns None
  ∧ fatal (GetActuator "Odd" odd_configuration).1 = false.
Proof. repeat split. Qed.

(** C4, amended: when the spec registered under the name carries a tag that
    is none of the kinds the factory has a case for, no case of the switch
    is taken and the factory returns the null pointer, as it does for a name
    that is not registered; the call is not fatal. *)
Theorem factory_unlisted_tag_returns_null (name : string) (config : Configuration) :
  (∀ sensor tag,
     sensor_spec config name = Some sensor →
     SensorConfig.type sensor = SensorType.Unlisted tag →
     (GetSensor name config).1 = Returns None ∧ fatal (GetSensor name config).1 = false)
  ∧ (∀ actu tag,
       actuator_spec config name = Some actu →
       ActuatorConfig.type actu = ActuatorType.Unlisted tag →
       (GetActuator name config).1 = Returns None
       ∧ fatal (GetActuator name config).1 = false).
Proof.
  split.
  - intros sensor tag Hspec Hty. rewrite GetSensor_result, Hspec, Hty. split; reflexivity.
  - intros actu tag Hspec Hty. rewrite GetActuator_result, Hspec, Hty. split; reflexivity.
Qed.

Lemma factory_unlisted_tag_returns_null_witness :
  (GetSensor "Odd" odd_configuration).1 = Returns None
  ∧ (GetActuator "Odd" odd_configuration).1 = Returns None.
Proof.
  destruct (factory_unlisted_tag_returns_null "Odd" odd_configuration) as [Hs Ha].
  split.
  - apply (Hs odd_sensor 7); reflexivity.
  - apply (Ha odd_actuator 7); reflexivity.
Defined.

(** C5: a registered spec with a tag the factory knows yields the device of
    that kind, built from the spec's polling time and position; a reaction
    wheel also gets its moment of inertia and two bound records, whose
    velocity and acceleration are the spec's minimal and maximal angular
    velocity and acceleration, whose positions are the two extreme literals,
    and whose times are the literals [0] and [10000000]. *)
Theorem factory_constructs_device_of_spec (name : string) (config : Configuration) :
  (∀ sensor,
     sensor_spec config name = Some sensor →
     SensorConfig.type sensor = SensorType.Accelerometer →
     (GetSensor name config).1
     = Returns (Some (Accelerometer (timestamp_of_int (SensorConfig.pollingTime sensor))
                        (SensorConfig.position sensor))))
  ∧ (∀ sensor,
       sensor_spec config name = Some sensor →
       SensorConfig.type sensor = SensorType.Gyroscope →
       (GetSensor name config).1
       = Returns (Some (Gyroscope (timestamp_of_int (SensorConfig.pollingTime sensor))
                          (SensorConfig.position sensor))))
  ∧ (∀ reac,
       actuator_spec config name
       = Some (ActuatorConfig.ReactionWheel ActuatorType.ReactionWheel reac) →
       ∃ min max,
         (GetActuator name config).1
         = Returns (Some (Reaction_wheel
                            (timestamp_of_float (ReactionWheelConfig.pollingTime reac))
                            (ReactionWheelConfig.position reac)
                            min max
                            (ReactionWheelConfig.momentOfInertia reac)))
         ∧ actuator_state.velocity min = ReactionWheelConfig.minAngVel reac
         ∧ actuator_state.velocity max = ReactionWheelConfig.maxAngVel reac
         ∧ actuator_state.acceleration min = ReactionWheelConfig.minAngAccel reac
         ∧ actuator_state.acceleration max = ReactionWheelConfig.maxAngAccel reac
         ∧ actuator_state.position min = Float32.neg (Float32.lit 100000000000000)
         ∧ actuator_state.position max = Float32.lit 10000000000
         ∧ actuator_state.time min = timestamp_of_float (Float32.lit 0)
         ∧ actuator_state.time max = timestamp_of_float (Float32.lit 10000000)).
Proof.
  split; [|split].
  - intros sensor Hspec Hty. rewrite GetSensor_result, Hspec, Hty. reflexivity.
  - intros sensor Hspec Hty. rewrite GetSensor_result, Hspec, Hty. reflexivity.
  - intros reac Hspec.
    exists (reaction_wheel_min reac), (reaction_wheel_max reac).
    rewrite GetActuator_result, Hspec. repeat split.
Qed.

Lemma factory_constructs_device_of_spec_witness :
  (GetSensor "Accel1" simulator_yaml).1
  = Returns (Some (Accelerometer (timestamp_of_int 10) zero3))
  ∧ (GetSensor "Gyro1" simulator_yaml).1
    = Returns (Some (Gyroscope (timestamp_of_int 10) zero3))
  ∧ ∃ min max,
      (GetActuator "ReactionWheel1" simulator_yaml).1
      = Returns (Some (Reaction_wheel (timestamp_of_float (Float32.lit 10)) zero3
                         min max (Float32.lit 1)))
      ∧ actuator_state.velocity max = Float32.lit 1000.
Proof.
  destruct (factory_constructs_device_of_spec "Accel1" simulator_yaml) as [Ha _].
  destruct (factory_constructs_device_of_spec "Gyro1" simulator_yaml) as [_ [Hg _]].
  destruct (factory_constructs_device_of_spec "ReactionWheel1" simulator_yaml)
    as [_ [_ Hw]].
  split; [apply (Ha Accel1); reflexivity|].
  split; [apply (Hg Gyro1); reflexivity|].
  destruct (Hw ReactionWheel1) as (mn & mx & Hret & _ & Hvmax & _); [reflexivity|].
  exists mn, mx. split; [exact Hret | exact Hvmax].
Defined.

(** C9: in the [ReactionWheel] case [GetActuator] reads through the result
    of the downcast without testing it, so an object that carries the tag
    without being a [ReactionWheelConfig] makes the call read through a null
    pointer; when every stored object that carries the tag is a
    [ReactionWheelConfig], no call does. *)
Theorem GetActuator_downcast_is_safe (name : string) (config : Configuration) :
  (∀ actu,
     actuator_spec config name = Some actu →
     ActuatorConfig.type actu = ActuatorType.ReactionWheel →
     ActuatorConfig.dynamic_cast_ReactionWheelConfig actu = None →
     (GetActuator name config).1 = NullDereference)
  ∧ (tags_match_classes config = true → fatal (GetActuator name config).1 = false).
Proof.
  split.
  - intros actu Hspec Hty Hcast. rewrite GetActuator_result, Hspec, Hty, Hcast. reflexivity.
  - intros Hall. rewrite GetActuator_result.
    destruct (actuator_spec config name) as [actu|] eqn:Hspec; [|reflexivity].
    destruct (ActuatorConfig.type actu) eqn:Hty; [|reflexivity].
    pose proof (tags_match_classes_lookup config name actu Hall Hspec Hty) as Hclass.
    destruct actu; [discriminate Hclass | reflexivity].
Qed.

Lemma GetActuator_downcast_is_safe_witness :
  (GetActuator "Wheel" mistagged_configuration).1 = NullDereference
  ∧ tags_match_classes simulator_yaml = true
  ∧ fatal (GetActuator "ReactionWheel1" simulator_yaml).1 = false.
Proof.
  destruct (GetActuator_downcast_is_safe "Wheel" mistagged_configuration) as [Hnull _].
  destruct (GetActuator_downcast_is_safe "ReactionWheel1" simulator_yaml) as [_ Hsafe].
  split; [apply (Hnull (ActuatorConfig.Base ActuatorType.ReactionWheel)); reflexivity|].
  split; [reflexivity | apply Hsafe; reflexivity].
Defined.

(** C10: whatever the configuration holds, an actuator the factory returns
    has position bounds from [-100000000000000.0f] to [10000000000.0f] and
    time bounds from [0.0f] to [10000000.0f]: the four literals of the
    source, none of them read from the spec. *)
Theorem GetActuator_position_and_time_bounds_are_constants
  (name : string) (config : Configuration) (a : Actuator) :
  (GetActuator name config).1 = Returns (Some a) →
  actuator_state.position (min_vals a) = Float32.neg (Float32.lit 100000000000000)
  ∧ actuator_state.position (max_vals a) = Float32.lit 10000000000
  ∧ actuator_state.time (min_vals a) = timestamp_of_float (Float32.lit 0)
  ∧ actuator_state.time (max_vals a) = timestamp_of_float (Float32.lit 10000000).
Proof.
  rewrite GetActuator_result.
  destruct (actuator_spec config name) as [actu|]; [|discriminate].
  destruct (ActuatorConfig.type actu); [|discriminate].
  destruct (ActuatorConfig.dynamic_cast_ReactionWheelConfig actu) as [reac|]; [|discriminate].
  intros [= <-]. repeat split.
Qed.

Lemma GetActuator_position_and_time_bounds_are_constants_witness :
  ∃ a,
    (GetActuator "ReactionWheel1" simulator_yaml).1 = Returns (Some a)
    ∧ actuator_state.time (max_vals a) = timestamp_of_float (Float32.lit 10000000).
Proof.
  eexists. split; [reflexivity|].
  apply (GetActuator_position_and_time_bounds_are_constants "ReactionWheel1" simulator_yaml).
  reflexivity.
Defined.

(** ** The integration step keeps the state within bounds *)

Section ActuatorLemmas.
Import ActuatorModel.
Local Open Scope Q_scope.

Lemma clamp_within (b : Bounds) (x : Q) : well_formed b → within b (clamp b x).
Proof.
  unfold well_formed, within, clamp. intros Hb.
  destruct (Qlt_le_dec x (lower b)); [split; lra|].
  destruct (Qlt_le_dec (upper b) x); split; lra.
Qed.

Lemma withinb_within (b : Bounds) (x : Q) : withinb b x = true ↔ within b x.
Proof. unfold withinb, within. rewrite andb_true_iff, !Qle_bool_iff. tauto. Qed.

Lemma within_Qred (b : Bounds) (x : Q) : within b x → within b (Qred x).
Proof. unfold within. rewrite Qred_correct. tauto. Qed.

(** The bounds are static. *)
Lemma integrate_bounds_kept (a a' : Actuator) (at_time commanded : Q) :
  integrate a at_time commanded = Some a' →
  velocityBounds a' = velocityBounds a ∧ accelerationBounds a' = accelerationBounds a.
Proof.
  unfold integrate. destruct (Qlt_le_dec _ 0); [discriminate|].
  intros [= <-]. split; reflexivity.
Qed.

(** A step that succeeds did not go back in time, and stores [time = at]. *)
Lemma integrate_time (a a' : Actuator) (at_time commanded : Q) :
  integrate a at_time commanded = Some a' →
  time (state a') = at_time ∧ time (state a) <= at_time.
Proof.
  unfold integrate. destruct (Qlt_le_dec _ 0) as [|Hdt]; [discriminate|].
  intros [= <-]. simpl. split; [reflexivity | lra].
Qed.

Lemma integrate_velocity_within (a a' : Actuator) (at_time commanded : Q) :
  well_formed (velocityBounds a) →
  integrate a at_time commanded = Some a' →
  within (velocityBounds a') (velocity (state a')).
Proof.
  intros Hv. unfold integrate. destruct (Qlt_le_dec _ 0); [discriminate|].
  intros [= <-]. simpl. apply within_Qred, clamp_within, Hv.
Qed.

(** When the velocity is clamped on leaving a range it was in, the
    realized acceleration lies between [0] and the candidate. *)
Lemma realized_acceleration_within (ab vb : Bounds) (v0 c dt : Q) :
  0 <= dt →
  within ab c → within ab 0 → within vb v0 →
  withinb vb (v0 + c * dt) = false →
  within ab ((clamp vb (v0 + c * dt) - v0) / dt).
Proof.
  unfold within. intros Hdt [Hc1 Hc2] [H01 H02] [Hv1 Hv2] Hout.
  assert (Hnot : ¬ (lower vb <= v0 + c * dt ∧ v0 + c * dt <= upper vb)).
  { intros H. apply withinb_within in H. congruence. }
  assert (Hpos : 0 < dt).
  { destruct (Qlt_le_dec 0 dt) as [|Hle]; [assumption|].
    exfalso. apply Hnot. assert (Hz : dt == 0) by lra. rewrite Hz. split; lra. }
  unfold clamp.
  destruct (Qlt_le_dec (v0 + c * dt) (lower vb)) as [Hlow|Hlow].
  - split.
    + apply Qle_shift_div_l; [assumption|]. nra.
    + apply Qle_shift_div_r; [assumption|]. nra.
  - destruct (Qlt_le_dec (upper vb) (v0 + c * dt)) as [Hup|Hup].
    + split.
      * apply Qle_shift_div_l; [assumption|]. nra.
      * apply Qle_shift_div_r; [assumption|]. nra.
    + exfalso. apply Hnot. split; assumption.
Qed.

Lemma clamp_fixes (b : Bounds) (x : Q) : within b x → clamp b x = x.
Proof.
  unfold within, clamp. intros [Hlow Hup].
  destruct (Qlt_le_dec x (lower b)); [lra|].
  destruct (Qlt_le_dec (upper b) x); [lra|]. reflexivity.
Qed.

Lemma integrate_acceleration_within (a a' : Actuator) (at_time commanded : Q) :
  well_formed (accelerationBounds a) →
  integrate a at_time commanded = Some a' →
  within (accelerationBounds a') (acceleration (state a')).
Proof.
  intros Ha. unfold integrate.
  destruct (Qlt_le_dec _ 0) as [|Hdt]; [discriminate|].
  intros [= <-]. simpl. apply within_Qred.
  destruct (_ && _); apply clamp_within, Ha.
Qed.

(** Where the acceleration bounds contain [0] and the velocity was within
    its bounds, the reduction is exact: the stored velocity is the former
    one plus the stored acceleration over the elapsed time. *)
Lemma integrate_clamped_step_is_consistent (a a' : Actuator) (at_time commanded : Q) :
  well_formed (accelerationBounds a) →
  within (accelerationBounds a) 0 →
  within (velocityBounds a) (velocity (state a)) →
  velocity_clamped a at_time commanded = true →
  integrate a at_time commanded = Some a' →
  velocity (state a')
  == velocity (state a) + acceleration (state a') * (at_time - time (state a)).
Proof.
  intros Ha H0 Hv Hclamped. unfold integrate.
  destruct (Qlt_le_dec _ 0) as [|Hdt]; [discriminate|].
  rewrite Hclamped. intros [= <-]. simpl. rewrite !Qred_correct.
  pose proof Hclamped as Hout. unfold velocity_clamped in Hout.
  apply negb_true_iff in Hout. unfold integrated_velocity in *.
  set (dt := at_time - time (state a)) in *.
  set (c := clamp (accelerationBounds a) commanded) in *.
  assert (Hne : ¬ dt == 0).
  { intros Hz. apply not_true_iff_false in Hout. apply Hout, withinb_within.
    unfold within in *. rewrite Hz. destruct Hv. split; lra. }
  destruct (Qeq_bool dt 0) eqn:Hb; [apply Qeq_bool_iff in Hb; contradiction|].
  simpl. rewrite (clamp_fixes (accelerationBounds a)).
  - field. exact Hne.
  - apply realized_acceleration_within; try assumption. apply clamp_within, Ha.
Qed.

(** C2 as stated fails.  The wheel [inverted] has its minimal velocity
    above its maximal one, so no velocity lies within its bounds; the
    velocity stored by a step, [1000], does not. *)
Lemma integrate_with_inverted_bounds_leaves_bounds :
  ∃ a',
    integrate inverted 1 0 = Some a'
    ∧ velocity (state a') = 1000
    ∧ velocityBounds a' = {| lower := 1000; upper := 0 |}
    ∧ ¬ within (velocityBounds a') (velocity (state a')).
Proof.
  eexists. split; [reflexivity|]. split; [reflexivity|]. split; [reflexivity|].
  intros [_ Hup]. apply Hup. reflexivity.
Qed.

(** Whatever a step stores, it is outside such bounds. *)
Lemma inverted_bounds_hold_nothing (x : Q) : ¬ within (velocityBounds inverted) x.
Proof. unfold within. simpl. intros [Hlow Hup]. lra. Qed.

(** C2, amended: for an actuator whose velocity and acceleration bounds
    are intervals (min ≤ max), the state stored by an integration step has
    its velocity within the velocity bounds and its acceleration within the
    acceleration bounds. *)
Theorem integrate_keeps_state_within_bounds
  (a a' : Actuator) (at_time commanded : Q) :
  well_formed (velocityBounds a) →
  well_formed (accelerationBounds a) →
  integrate a at_time commanded = Some a' →
  within (velocityBounds a') (velocity (state a'))
  ∧ within (accelerationBounds a') (acceleration (state a')).
Proof.
  intros Hv Ha Hstep. split.
  - eapply integrate_velocity_within; eassumption.
  - eapply integrate_acceleration_within; eassumption.
Qed.

Lemma integrate_keeps_state_within_bounds_witness :
  integrate wheel (1 # 1000) 5000 = Some wheel_after_1ms
  ∧ within (velocityBounds wheel_after_1ms) (velocity (state wheel_after_1ms))
  ∧ within (accelerationBounds wheel_after_1ms) (acceleration (state wheel_after_1ms)).
Proof.
  split; [reflexivity|].
  apply (integrate_keeps_state_within_bounds wheel wheel_after_1ms (1 # 1000) 5000);
    [discriminate | discriminate | reflexivity].
Defined.

(** Along a run of steps: a state within its bounds stays within them. *)
Lemma integrate_all_within (calls : list (Q * Q)) (a a' : Actuator) :
  well_formed (velocityBounds a) →
  well_formed (accelerationBounds a) →
  within (velocityBounds a) (velocity (state a)) →
  within (accelerationBounds a) (acceleration (state a)) →
  integrate_all calls a = Some a' →
  within (velocityBounds a') (velocity (state a'))
  ∧ within (accelerationBounds a') (acceleration (state a')).
Proof.
  revert a. induction calls as [|[at_time commanded] calls IH]; simpl;
    intros a Hwv Hwa Hv Hacc.
  - intros [= <-]. split; assumption.
  - destruct (integrate a at_time commanded) as [a1|] eqn:Hstep; [|discriminate].
    destruct (integrate_bounds_kept _ _ _ _ Hstep) as [Hbv Hba].
    pose proof (integrate_velocity_within _ _ _ _ Hwv Hstep) as Hv1.
    pose proof (integrate_acceleration_within _ _ _ _ Hwa Hstep) as Ha1.
    rewrite Hbv in Hv1. rewrite Hba in Ha1.
    apply IH; rewrite ?Hbv, ?Hba; assumption.
Qed.

(** End-to-end scenario 2: the wheel with maximal velocity and
    acceleration [1000], under a sustained input of [5000] for one second
    in steps of one millisecond, ends at velocity [1000] exactly; one
    millisecond earlier it is at [999]. *)
Example sustained_input_reaches_maximal_velocity :
  option_map (λ a, velocity (state a)) (integrate_all (sustained 1000 (1 # 1000) 5000) wheel)
  = Some 1000
  ∧ option_map (λ a, velocity (state a)) (integrate_all (sustained 999 (1 # 1000) 5000) wheel)
    = Some 999.
Proof. split; vm_compute; reflexivity. Qed.
End ActuatorLemmas.

(** ** The scheduler *)

Section SchedulerLemmas.
Import Scheduler.
Context {Reading : Type}.
Variable sample : string → Z → Reading.

(** An event comes from a device that was due. *)
Lemma poll_events (now : Z) (cmd : string → Q) (d d' : Device)
  (evs : list (Event Reading)) (e : Event Reading) :
  poll sample now cmd d = Some (d', evs) → e ∈ evs →
  due now d = true ∧ event_device e = name d ∧ event_time e = now.
Proof.
  unfold poll. destruct (due now d) eqn:Hdue.
  - destruct (body d) as [|a].
    + intros [= <- <-] He. apply list_elem_of_singleton in He. subst e. auto.
    + destruct (ActuatorModel.integrate a _ _); [|discriminate].
      intros [= <- <-] He. apply list_elem_of_singleton in He. subst e. auto.
  - intros [= <- <-] He. apply elem_of_nil in He. contradiction.
Qed.

Lemma poll_all_events (now : Z) (cmd : string → Q) (ds ds' : list Device)
  (evs : list (Event Reading)) (e : Event Reading) :
  poll_all sample now cmd ds = Some (ds', evs) → e ∈ evs →
  ∃ d, d ∈ ds ∧ due now d = true ∧ event_device e = name d ∧ event_time e = now.
Proof.
  revert ds' evs. induction ds as [|d ds IH]; simpl; intros ds' evs.
  - intros [= <- <-] He. apply elem_of_nil in He. contradiction.
  - destruct (poll sample now cmd d) as [[d1 evs1]|] eqn:Hpoll; [|discriminate].
    destruct (poll_all sample now cmd ds) as [[ds2 evs2]|]; [|discriminate].
    intros [= <- <-] He. apply elem_of_app in He. destruct He as [He|He].
    + exists d. split; [left|]. eapply poll_events; eassumption.
    + destruct (IH ds2 evs2 eq_refl He) as (d0 & Hin & Hrest).
      exists d0. split; [right; exact Hin | exact Hrest].
Qed.

(** The function and the relation describe the same machine. *)
Lemma tick_step (i : Input) (s s' : Sched) (evs : list (Event Reading)) :
  tick sample i s = Some (s', evs) → step sample i s evs s'.
Proof.
  unfold tick, timed_out. destruct (status s) eqn:Hst;
    try (intros [= <- <-]; apply step_halted; congruence).
  destruct (Z.leb_spec (timeout (clock s)) (currentTime (clock s) - runStartTime s)).
  - intros [= <- <-]. by apply step_timeout.
  - destruct (stop i) eqn:Hstop.
    + intros [= <- <-]. by apply step_stop.
    + destruct (stepSize s i) as [size|] eqn:Hsize; [|discriminate].
      destruct (poll_all _ _ _ _) as [[ds evs0]|] eqn:Hpoll; [|discriminate].
      intros [= <- <-]. by eapply step_advance.
Qed.

Lemma step_tick (i : Input) (s s' : Sched) (evs : list (Event Reading)) :
  step sample i s evs s' → tick sample i s = Some (s', evs).
Proof.
  unfold tick, timed_out.
  intros [Hst|Hst Hto|Hst Hto Hstop|size ds evs0 Hst Hto Hstop Hsize Hpoll].
  - destruct (status s); congruence.
  - rewrite Hst. destruct (Z.leb_spec (timeout (clock s))
                             (currentTime (clock s) - runStartTime s)); [reflexivity|lia].
  - rewrite Hst, Hstop. destruct (Z.leb_spec (timeout (clock s))
                             (currentTime (clock s) - runStartTime s)); [lia|reflexivity].
  - rewrite Hst, Hstop, Hsize, Hpoll. destruct (Z.leb_spec (timeout (clock s))
                             (currentTime (clock s) - runStartTime s)); [lia|reflexivity].
Qed.

(** Outside [Running] nothing happens, whatever the inputs. *)
Lemma run_halted (inputs : list Input) (s : Sched) :
  status s ≠ Running → run sample inputs s = Some (s, []).
Proof.
  intros Hst. induction inputs as [|i inputs IH]; simpl; [reflexivity|].
  replace (tick sample i s) with (Some (s, @nil (Event Reading))).
  - rewrite IH. reflexivity.
  - unfold tick. destruct (status s); congruence.
Qed.

Lemma run_app (inputs more : list Input) (s : Sched) :
  run sample (inputs ++ more) s
  = match run sample inputs s with
    | Some (s', evs) =>
        match run sample more s' with
        | Some (s'', evs') => Some (s'', evs ++ evs')
        | None => None
        end
    | None => None
    end.
Proof.
  revert s. induction inputs as [|i inputs IH]; simpl; intros s.
  - destruct (run sample more s) as [[s' evs]|]; reflexivity.
  - destruct (tick sample i s) as [[s1 evs1]|]; [|reflexivity].
    rewrite IH. destruct (run sample inputs s1) as [[s2 evs2]|]; [|reflexivity].
    destruct (run sample more s2) as [[s3 evs3]|]; [|reflexivity].
    rewrite app_assoc. reflexivity.
Qed.

(** C6: an event of a tick comes from a device whose polling interval has
    elapsed on the clock since its last poll.  One gyroscope with polling
    time 10 ms under a fixed step of 1 ms is not sampled in the first nine
    ticks, which end at time 9, and over a run of 35 ms is sampled at
    times 10, 20 and 30 and at no other. *)
Theorem scheduler_polls_only_due_devices :
  (∀ i s evs s' e,
     step sample i s evs s' → e ∈ evs →
     ∃ d, d ∈ devices s
          ∧ name d = event_device e
          ∧ event_time e = currentTime (clock s')
          ∧ pollingInterval d ≤ currentTime (clock s') - lastPollTime d)
  ∧ summary (run sample (replicate 9 quiet) (gyro_run 35)) = Some (Running, 9, [])
  ∧ summary (run sample (replicate 40 quiet) (gyro_run 35))
    = Some (TimedOut, 35, [10; 20; 30]).
Proof.
  split; [|split; reflexivity].
  intros i s evs s' e Hstep He.
  destruct Hstep as [Hst|Hst Hto|Hst Hto Hstop|size ds evs Hst Hto Hstop Hsize Hpoll];
    try (apply elem_of_nil in He; contradiction).
  destruct (poll_all_events _ _ _ _ _ _ Hpoll He) as (d & Hin & Hdue & Hname & Htime).
  exists d. simpl. unfold due, deadline in Hdue. apply Z.leb_le in Hdue.
  repeat split; [assumption | congruence | assumption | lia].
Qed.

(** C7: a running scheduler whose clock has reached the timeout becomes
    [TimedOut] at the next tick, which is a state handed back to the
    caller and emits nothing; from [TimedOut] no input changes the state
    or emits an event.  With a timeout of 10 ms and a step of 1 ms the
    run is still [Running] after each of the first ten ticks, at times 1
    to 10, and [TimedOut] after the eleventh, at time 10; whatever follows
    adds no event. *)
Theorem scheduler_times_out :
  (∀ i s,
     status s = Running →
     timeout (clock s) ≤ currentTime (clock s) - runStartTime s →
     tick sample i s = Some (set_status TimedOut s, []))
  ∧ (∀ inputs s, status s = TimedOut → run sample inputs s = Some (s, []))
  ∧ (∀ n, (n ≤ 10)%nat →
       summary (run sample (replicate n quiet) (gyro_run 10))
       = Some (Running, Z.of_nat n, if decide (n = 10%nat) then [10] else []))
  ∧ (∀ more,
       summary (run sample (replicate 11 quiet ++ more) (gyro_run 10))
       = Some (TimedOut, 10, [10])).
Proof.
  split; [|split; [|split]].
  - intros i s Hst Hto. apply step_tick. by apply step_timeout.
  - intros inputs s Hst. apply run_halted. congruence.
  - intros n Hn.
    do 11 (destruct n as [|n]; [reflexivity|]). lia.
  - intros more. rewrite run_app.
    destruct (run sample (replicate 11 quiet) (gyro_run 10)) as [[s evs]|] eqn:Hrun;
      [|discriminate Hrun].
    assert (Hs : status s = TimedOut ∧ currentTime (clock s) = 10
                 ∧ map event_time evs = [10]).
    { injection Hrun as <- <-. repeat split. }
    destruct Hs as (Hst & Htime & Hevs).
    rewrite run_halted by congruence. simpl. rewrite app_nil_r, Hst, Htime, Hevs.
    reflexivity.
Qed.
End SchedulerLemmas.

Section SchedulerWitnesses.
Import Scheduler.

Lemma scheduler_polls_only_due_devices_witness :
  step clock_reading quiet (gyro_at 9 0 35)
    [SensorReading 10 "Gyro1" 10] (gyro_at 10 10 35)
  ∧ ∃ d, d ∈ devices (gyro_at 9 0 35)
         ∧ name d = "Gyro1"%string
         ∧ 10 = currentTime (clock (gyro_at 10 10 35))
         ∧ pollingInterval d ≤ currentTime (clock (gyro_at 10 10 35)) - lastPollTime d.
Proof.
  assert (Hstep : step clock_reading quiet (gyro_at 9 0 35)
                    [SensorReading 10 "Gyro1" 10] (gyro_at 10 10 35))
    by (apply tick_step; reflexivity).
  split; [exact Hstep|].
  destruct (scheduler_polls_only_due_devices clock_reading) as [Honly _].
  apply (Honly quiet (gyro_at 9 0 35) [SensorReading 10 "Gyro1" 10] (gyro_at 10 10 35)
           (SensorReading 10 "Gyro1" 10) Hstep).
  left.
Defined.

Lemma scheduler_times_out_witness :
  status (gyro_at 10 10 10) = Running
  ∧ timeout (clock (gyro_at 10 10 10))
    ≤ currentTime (clock (gyro_at 10 10 10)) - runStartTime (gyro_at 10 10 10)
  ∧ tick clock_reading quiet (gyro_at 10 10 10)
    = Some (set_status TimedOut (gyro_at 10 10 10), [])
  ∧ run clock_reading [quiet; quiet] (set_status TimedOut (gyro_at 10 10 10))
    = Some (set_status TimedOut (gyro_at 10 10 10), [])
  ∧ summary (run clock_reading (replicate 10 quiet) (gyro_run 10))
    = Some (Running, 10, [10]).
Proof.
  destruct (scheduler_times_out clock_reading) as (Hto & Hterm & Hrun & _).
  split; [reflexivity|]. split; [simpl; lia|].
  split; [apply Hto; [reflexivity | simpl; lia]|].
  split; [apply Hterm; reflexivity|].
  apply (Hrun 10%nat). lia.
Defined.
End SchedulerWitnesses.

(** ** The store under factory calls *)

Section FactoryStore.
Variable name : string.
Variable config : Configuration.

(** The store a lookup leaves: the entry of the name holds the spec found,
    or a null pointer. *)
Lemma GetSensorConfig_store :
  (GetSensorConfig name config).2
  = set_sensorConfigs (<[name := sensor_spec config name]> (sensorConfigs config)) config.
Proof.
  unfold GetSensorConfig, map_index, sensor_spec.
  destruct (sensorConfigs config !! name) as [p|] eqn:Hp; simpl; [|reflexivity].
  rewrite insert_id by exact Hp. reflexivity.
Qed.

Lemma GetActuatorConfig_store :
  (GetActuatorConfig name config).2
  = set_actuatorConfigs (<[name := actuator_spec config name]> (actuatorConfigs config))
      config.
Proof.
  unfold GetActuatorConfig, map_index, actuator_spec.
  destruct (actuatorConfigs config !! name) as [p|] eqn:Hp; simpl; [|reflexivity].
  rewrite insert_id by exact Hp. reflexivity.
Qed.

Lemma GetSensor_store :
  (GetSensor name config).2
  = set_sensorConfigs (<[name := sensor_spec config name]> (sensorConfigs config)) config.
Proof. rewrite GetSensor_state. apply GetSensorConfig_store. Qed.

Lemma GetActuator_store :
  (GetActuator name config).2
  = set_actuatorConfigs (<[name := actuator_spec config name]> (actuatorConfigs config))
      config.
Proof. rewrite GetActuator_state. apply GetActuatorConfig_store. Qed.

Lemma GetSensor_keeps_specs (n : string) :
  sensor_spec (GetSensor name config).2 n = sensor_spec config n
  ∧ actuator_spec (GetSensor name config).2 n = actuator_spec config n.
Proof.
  rewrite GetSensor_store. unfold sensor_spec, actuator_spec. simpl. split; [|reflexivity].
  destruct (decide (name = n)) as [->|Hne].
  - rewrite lookup_insert_eq. reflexivity.
  - rewrite lookup_insert_ne by exact Hne. reflexivity.
Qed.

Lemma GetActuator_keeps_specs (n : string) :
  sensor_spec (GetActuator name config).2 n = sensor_spec config n
  ∧ actuator_spec (GetActuator name config).2 n = actuator_spec config n.
Proof.
  rewrite GetActuator_store. unfold sensor_spec, actuator_spec. simpl. split; [reflexivity|].
  destruct (decide (name = n)) as [->|Hne].
  - rewrite lookup_insert_eq. reflexivity.
  - rewrite lookup_insert_ne by exact Hne. reflexivity.
Qed.

(** X1: a call to [GetSensor] changes nothing of the configuration but the
    entry of the requested name in the sensor map: every other entry of that
    map, the whole actuator map and the scalar members are as before; and
    likewise [GetActuator] with the two maps exchanged. *)
Theorem factory_call_frame :
  ((∀ other, other ≠ name →
      sensorConfigs (GetSensor name config).2 !! other = sensorConfigs config !! other)
   ∧ actuatorConfigs (GetSensor name config).2 = actuatorConfigs config
   ∧ timestepInMilliSeconds (GetSensor name config).2 = timestepInMilliSeconds config
   ∧ timeoutInMilliseconds (GetSensor name config).2 = timeoutInMilliseconds config
   ∧ useVariableTimestep (GetSensor name config).2 = useVariableTimestep config
   ∧ timeStepMax (GetSensor name config).2 = timeStepMax config
   ∧ timeStepMin (GetSensor name config).2 = timeStepMin config)
  ∧ ((∀ other, other ≠ name →
        actuatorConfigs (GetActuator name config).2 !! other
        = actuatorConfigs config !! other)
     ∧ sensorConfigs (GetActuator name config).2 = sensorConfigs config
     ∧ timestepInMilliSeconds (GetActuator name config).2 = timestepInMilliSeconds config
     ∧ timeoutInMilliseconds (GetActuator name config).2 = timeoutInMilliseconds config
     ∧ useVariableTimestep (GetActuator name config).2 = useVariableTimestep config
     ∧ timeStepMax (GetActuator name config).2 = timeStepMax config
     ∧ timeStepMin (GetActuator name config).2 = timeStepMin config).
Proof.
  rewrite GetSensor_store, GetActuator_store. simpl.
  split; (split; [|repeat split]); intros other Hne;
    rewrite lookup_insert_ne by congruence; reflexivity.
Qed.

(** X2: no call to the factory registers, removes or replaces a spec: after
    [GetSensor] or [GetActuator], every name, the requested one included,
    has the sensor spec and the actuator spec it had before. *)
Theorem factory_call_keeps_specs (n : string) :
  (sensor_spec (GetSensor name config).2 n = sensor_spec config n
   ∧ actuator_spec (GetSensor name config).2 n = actuator_spec config n)
  ∧ (sensor_spec (GetActuator name config).2 n = sensor_spec config n
     ∧ actuator_spec (GetActuator name config).2 n = actuator_spec config n).
Proof. split; [apply GetSensor_keeps_specs | apply GetActuator_keeps_specs]. Qed.

(** X3: after a call the requested name is a key of the map queried, and
    its entry is the spec the call found, a null pointer when it found
    none; the map holds every entry it held before, and its keys are the
    former keys and the name. *)
Theorem factory_call_leaves_key :
  (GetSensorConfigs (GetSensor name config).2 !! name = Some (sensor_spec config name)
   ∧ GetSensorConfigs config ⊆ GetSensorConfigs (GetSensor name config).2
   ∧ dom (GetSensorConfigs (GetSensor name config).2)
     = {[name]} ∪ dom (GetSensorConfigs config))
  ∧ (GetActuatorConfigs (GetActuator name config).2 !! name
     = Some (actuator_spec config name)
     ∧ GetActuatorConfigs config ⊆ GetActuatorConfigs (GetActuator name config).2
     ∧ dom (GetActuatorConfigs (GetActuator name config).2)
       = {[name]} ∪ dom (GetActuatorConfigs config)).
Proof.
  unfold GetSensorConfigs, GetActuatorConfigs.
  rewrite GetSensor_store, GetActuator_store. simpl.
  split; (split; [apply lookup_insert_eq|]; split; [|apply dom_insert_L]).
  - unfold sensor_spec. destruct (sensorConfigs config !! name) as [p|] eqn:Hp.
    + rewrite insert_id by exact Hp. reflexivity.
    + apply insert_subseteq. exact Hp.
  - unfold actuator_spec. destruct (actuatorConfigs config !! name) as [p|] eqn:Hp.
    + rewrite insert_id by exact Hp. reflexivity.
    + apply insert_subseteq. exact Hp.
Qed.
End FactoryStore.

(** The entries of the map queried, after a call. *)
Lemma GetSensor_entries (name : string) (config : Configuration) (n : string) :
  sensorConfigs (GetSensor name config).2 !! n
  = if decide (name = n) then Some (sensor_spec config name)
    else sensorConfigs config !! n.
Proof. rewrite GetSensor_store. simpl. apply lookup_insert. Qed.

Lemma GetActuator_entries (name : string) (config : Configuration) (n : string) :
  actuatorConfigs (GetActuator name config).2 !! n
  = if decide (name = n) then Some (actuator_spec config name)
    else actuatorConfigs config !! n.
Proof. rewrite GetActuator_store. simpl. apply lookup_insert. Qed.

(** X4: the entries a call leaves do not depend on how often or in which
    order calls are made.  A second call with the same name leaves the store
    of the first.  After two calls for sensors, made in either order, every
    name has the same entry in the sensor map; likewise two calls for
    actuators and the actuator map.  A call for a sensor and a call for an
    actuator leave the same store in either order.  The order in which a
    hash map enumerates its entries is not described. *)
Theorem factory_calls_leave_same_entries (a b : string) (config : Configuration) :
  (GetSensor a (GetSensor a config).2).2 = (GetSensor a config).2
  ∧ (GetActuator a (GetActuator a config).2).2 = (GetActuator a config).2
  ∧ (∀ n, sensorConfigs (GetSensor a (GetSensor b config).2).2 !! n
          = sensorConfigs (GetSensor b (GetSensor a config).2).2 !! n)
  ∧ (∀ n, actuatorConfigs (GetActuator a (GetActuator b config).2).2 !! n
          = actuatorConfigs (GetActuator b (GetActuator a config).2).2 !! n)
  ∧ (GetSensor a (GetActuator b config).2).2 = (GetActuator b (GetSensor a config).2).2.
Proof.
  split; [|split; [|split; [|split]]].
  - apply GetSensor_registered_frame.
    rewrite GetSensor_store. simpl. rewrite lookup_insert_eq. eauto.
  - apply GetActuator_registered_frame.
    rewrite GetActuator_store. simpl. rewrite lookup_insert_eq. eauto.
  - intros n. rewrite !GetSensor_entries.
    rewrite (proj1 (GetSensor_keeps_specs b config a)),
      (proj1 (GetSensor_keeps_specs a config b)).
    repeat case_decide; congruence.
  - intros n. rewrite !GetActuator_entries.
    rewrite (proj2 (GetActuator_keeps_specs b config a)),
      (proj2 (GetActuator_keeps_specs a config b)).
    repeat case_decide; congruence.
  - rewrite (GetSensor_store a (GetActuator b config).2),
      (GetActuator_store b (GetSensor a config).2).
    rewrite (proj1 (GetActuator_keeps_specs b config a)),
      (proj2 (GetSensor_keeps_specs a config b)).
    rewrite GetSensor_store, GetActuator_store. reflexivity.
Qed.

(** ** What the factory returns *)

(** X5: the factory builds a device from a registered spec and from nothing
    else.  When [GetSensor] returns a sensor, a spec is registered under the
    name, the sensor is of the kind of its tag and carries its polling time
    and position; when [GetActuator] returns an actuator, the object
    registered under the name is a [ReactionWheelConfig] tagged
    [ReactionWheel], and the wheel is the one built from it. *)
Theorem factory_device_comes_from_spec (name : string) (config : Configuration) :
  (∀ dev,
     (GetSensor name config).1 = Returns (Some dev) →
     ∃ sensor,
       sensor_spec config name = Some sensor
       ∧ match dev with
         | Accelerometer polling position =>
             SensorConfig.type sensor = SensorType.Accelerometer
             ∧ polling = timestamp_of_int (SensorConfig.pollingTime sensor)
             ∧ position = SensorConfig.position sensor
         | Gyroscope polling position =>
             SensorConfig.type sensor = SensorType.Gyroscope
             ∧ polling = timestamp_of_int (SensorConfig.pollingTime sensor)
             ∧ position = SensorConfig.position sensor
         end)
  ∧ (∀ wheel,
       (GetActuator name config).1 = Returns (Some wheel) →
       ∃ reac,
         actuator_spec config name
         = Some (ActuatorConfig.ReactionWheel ActuatorType.ReactionWheel reac)
         ∧ wheel = Reaction_wheel
                     (timestamp_of_float (ReactionWheelConfig.pollingTime reac))
                     (ReactionWheelConfig.position reac)
                     (reaction_wheel_min reac) (reaction_wheel_max reac)
                     (ReactionWheelConfig.momentOfInertia reac)).
Proof.
  split.
  - intros dev. rewrite GetSensor_result.
    destruct (sensor_spec config name) as [sensor|]; [|discriminate].
    destruct (SensorConfig.type sensor) eqn:Hty; intros [= <-];
      exists sensor; repeat split; assumption.
  - intros wheel. rewrite GetActuator_result.
    destruct (actuator_spec config name) as [[ty|ty reac]|]; simpl;
      [destruct ty; discriminate| |discriminate].
    destruct ty; [|discriminate]. intros [= <-]. exists reac. split; reflexivity.
Qed.

Lemma factory_device_comes_from_spec_witness :
  ∃ sensor,
    sensor_spec simulator_yaml "Gyro1" = Some sensor
    ∧ SensorConfig.type sensor = SensorType.Gyroscope
    ∧ timestamp_of_int 10 = timestamp_of_int (SensorConfig.pollingTime sensor)
    ∧ zero3 = SensorConfig.position sensor.
Proof.
  destruct (factory_device_comes_from_spec "Gyro1" simulator_yaml) as [Hs _].
  apply (Hs (Gyroscope (timestamp_of_int 10) zero3)). reflexivity.
Defined.

(** X6: [GetSensor] never ends fatally, whatever the store holds;
    [GetActuator] ends fatally in exactly one case, when the object
    registered under the name is tagged [ReactionWheel] and is not a
    [ReactionWheelConfig]. *)
Theorem factory_fatal_exactly_on_mistagged_object (name : string) (config : Configuration) :
  fatal (GetSensor name config).1 = false
  ∧ (fatal (GetActuator name config).1 = true
     ↔ actuator_spec config name = Some (ActuatorConfig.Base ActuatorType.ReactionWheel)).
Proof.
  rewrite GetSensor_result, GetActuator_result. split.
  - destruct (sensor_spec config name); reflexivity.
  - destruct (actuator_spec config name) as [[ty|ty reac]|]; simpl.
    + destruct ty; simpl; split; congruence.
    + destruct ty; simpl; split; congruence.
    + split; discriminate.
Qed.

(** The results of a call are read off the registered specs. *)
Lemma call_result_by_specs (c : FactoryCall) (config1 config2 : Configuration) :
  (∀ n, sensor_spec config1 n = sensor_spec config2 n) →
  (∀ n, actuator_spec config1 n = actuator_spec config2 n) →
  (call c config1).1 = (call c config2).1.
Proof.
  intros Hs Ha. destruct c as [name|name]; unfold call.
  - pose proof (GetSensor_result name config1) as H1.
    pose proof (GetSensor_result name config2) as H2.
    rewrite Hs in H1. rewrite <- H2 in H1.
    destruct (GetSensor name config1), (GetSensor name config2). simpl in *. congruence.
  - pose proof (GetActuator_result name config1) as H1.
    pose proof (GetActuator_result name config2) as H2.
    rewrite Ha in H1. rewrite <- H2 in H1.
    destruct (GetActuator name config1), (GetActuator name config2). simpl in *. congruence.
Qed.

Lemma call_keeps_specs (c : FactoryCall) (config : Configuration) (n : string) :
  sensor_spec (call c config).2 n = sensor_spec config n
  ∧ actuator_spec (call c config).2 n = actuator_spec config n.
Proof.
  destruct c as [name|name]; unfold call.
  - pose proof (GetSensor_keeps_specs name config n) as H.
    destruct (GetSensor name config). exact H.
  - pose proof (GetActuator_keeps_specs name config n) as H.
    destruct (GetActuator name config). exact H.
Qed.

(** X7: what a call returns does not depend on the calls made before it:
    after any call to the factory, a call returns what it would have
    returned on the store as it was. *)
Theorem factory_result_ignores_earlier_call (earlier c : FactoryCall)
  (config : Configuration) :
  (call c (call earlier config).2).1 = (call c config).1.
Proof.
  apply call_result_by_specs; intros n; apply call_keeps_specs.
Qed.

(** Being well tagged, said of the specs. *)
Lemma tags_match_classes_iff (config : Configuration) :
  tags_match_classes config = true
  ↔ ∀ name a,
      actuator_spec config name = Some a →
      ActuatorConfig.type a = ActuatorType.ReactionWheel →
      ActuatorConfig.is_ReactionWheelConfig a = true.
Proof.
  split.
  - intros Hall name a. by apply tags_match_classes_lookup.
  - intros Hspec. unfold tags_match_classes. apply forallb_forall.
    intros [name p] Hin. apply list_elem_of_In, elem_of_map_to_list in Hin.
    unfold tag_matches_class. simpl. destruct p as [a|]; [|reflexivity].
    destruct (ActuatorConfig.type a) eqn:Hty; [|reflexivity].
    apply (Hspec name); [|exact Hty]. unfold actuator_spec. rewrite Hin. reflexivity.
Qed.

Lemma call_keeps_tags (c : FactoryCall) (config : Configuration) :
  tags_match_classes config = true → tags_match_classes (call c config).2 = true.
Proof.
  rewrite !tags_match_classes_iff. intros Hall name a Hspec.
  rewrite (proj2 (call_keeps_specs c config name)) in Hspec. by apply (Hall name).
Qed.

Lemma call_not_fatal (c : FactoryCall) (config : Configuration) :
  tags_match_classes config = true → built_fatal (call c config).1 = false.
Proof.
  intros Hall. destruct c as [name|name]; unfold call.
  - pose proof (GetSensor_result name config) as H.
    destruct (GetSensor name config) as [r c']. simpl in *. subst r.
    destruct (sensor_spec config name); reflexivity.
  - pose proof (GetActuator_result name config) as H.
    destruct (GetActuator name config) as [r c']. simpl in *. subst r.
    destruct (actuator_spec config name) as [a|] eqn:Hspec; [|reflexivity].
    destruct (ActuatorConfig.type a) eqn:Hty; [|reflexivity].
    pose proof (tags_match_classes_lookup config name a Hall Hspec Hty) as Hclass.
    destruct a; [discriminate Hclass | reflexivity].
Qed.

Lemma calls_from_equivalent_store (cs : list FactoryCall) (config config' : Configuration) :
  tags_match_classes config' = true →
  (∀ n, sensor_spec config' n = sensor_spec config n) →
  (∀ n, actuator_spec config' n = actuator_spec config n) →
  (calls cs config').1 = map (λ c, (call c config).1) cs
  ∧ tags_match_classes (calls cs config').2 = true
  ∧ (∀ n, sensor_spec (calls cs config').2 n = sensor_spec config n)
  ∧ (∀ n, actuator_spec (calls cs config').2 n = actuator_spec config n).
Proof.
  revert config'. induction cs as [|c cs IH]; intros config' Htags Hs Ha; simpl.
  - repeat split; assumption.
  - pose proof (call_not_fatal c config' Htags) as Hsafe.
    pose proof (call_keeps_tags c config' Htags) as Htags'.
    pose proof (call_result_by_specs c config' config Hs Ha) as Hres.
    pose proof (call_keeps_specs c config') as Hkeep.
    destruct (call c config') as [b config1]. simpl in *. rewrite Hsafe.
    destruct (IH config1 Htags') as (Hrs & Ht & Hs1 & Ha1).
    + intros n. rewrite (proj1 (Hkeep n)). apply Hs.
    + intros n. rewrite (proj2 (Hkeep n)). apply Ha.
    + destruct (calls cs config1) as [bs config2]. simpl in *.
      repeat split; try assumption. congruence.
Qed.

(** X8: on a store in which every object tagged [ReactionWheel] is a
    [ReactionWheelConfig], any sequence of factory calls runs to its end,
    none of them fatal; each call returns what it returns when made alone on
    the store as it was at the start, and the store at the end is as well
    tagged and has the same specs. *)
Theorem factory_calls_on_well_tagged_store (cs : list FactoryCall)
  (config : Configuration) :
  tags_match_classes config = true →
  (calls cs config).1 = map (λ c, (call c config).1) cs
  ∧ Forall (λ b, built_fatal b = false) (calls cs config).1
  ∧ tags_match_classes (calls cs config).2 = true
  ∧ (∀ n, sensor_spec (calls cs config).2 n = sensor_spec config n)
  ∧ (∀ n, actuator_spec (calls cs config).2 n = actuator_spec config n).
Proof.
  intros Htags.
  destruct (calls_from_equivalent_store cs config config Htags)
    as (Hrs & Ht & Hs & Ha); [reflexivity | reflexivity |].
  split; [exact Hrs|]. split; [|repeat split; assumption].
  rewrite Hrs. apply Forall_map, Forall_forall. intros c _.
  apply call_not_fatal, Htags.
Qed.

Lemma factory_calls_on_well_tagged_store_witness :
  tags_match_classes simulator_yaml = true
  ∧ (calls [CallGetSensor "Gyro1"; CallGetActuator "Nobody"; CallGetSensor "Nobody";
            CallGetActuator "ReactionWheel1"] simulator_yaml).1
    = [(call (CallGetSensor "Gyro1") simulator_yaml).1;
       (call (CallGetActuator "Nobody") simulator_yaml).1;
       (call (CallGetSensor "Nobody") simulator_yaml).1;
       (call (CallGetActuator "ReactionWheel1") simulator_yaml).1].
Proof.
  split; [reflexivity|].
  apply (factory_calls_on_well_tagged_store
           [CallGetSensor "Gyro1"; CallGetActuator "Nobody"; CallGetSensor "Nobody";
            CallGetActuator "ReactionWheel1"] simulator_yaml).
  reflexivity.
Defined.

(** ** The constructors of the sensor configurations *)

Section ConstructorLemmas.
Context {Node : Type} `{YamlNode Node}.

(** The loop over at most three entries that all convert fills the leading
    coefficients; a fourth entry is written past the end. *)
Lemma fill_position_short (ns : list Node) (xs : list float) (v : Vector3f) :
  as_floats ns = Some xs → (length xs ≤ 3)%nat →
  fill_position ns 0 v = Constructed (overwrite v xs).
Proof.
  intros Hxs Hlen.
  destruct ns as [|n0 [|n1 [|n2 [|n3 ns]]]]; simpl in Hxs |- *;
    repeat match type of Hxs with
      | context [as_float ?n] => destruct (as_float n); [|discriminate Hxs]
      end.
  - injection Hxs as <-. destruct v; reflexivity.
  - injection Hxs as <-. reflexivity.
  - injection Hxs as <-. reflexivity.
  - injection Hxs as <-. reflexivity.
  - destruct (as_floats ns); [|discriminate Hxs]. injection Hxs as <-.
    simpl in Hlen. lia.
Qed.

Lemma fill_position_long (ns : list Node) (xs : list float) (v : Vector3f) :
  as_floats ns = Some xs → (3 < length xs)%nat →
  fill_position ns 0 v = IndexOutOfRange 3.
Proof.
  intros Hxs Hlen.
  destruct ns as [|n0 [|n1 [|n2 [|n3 ns]]]]; simpl in Hxs |- *;
    repeat match type of Hxs with
      | context [as_float ?n] => destruct (as_float n); [|discriminate Hxs]
      end;
    try (injection Hxs as <-; simpl in Hlen; lia).
  reflexivity.
Qed.

Lemma fill_position_inversion (ns : list Node) (v position : Vector3f) :
  fill_position ns 0 v = Constructed position →
  ∃ xs, as_floats ns = Some xs ∧ (length xs ≤ 3)%nat ∧ position = overwrite v xs.
Proof.
  destruct ns as [|n0 [|n1 [|n2 [|n3 ns]]]]; simpl;
    repeat match goal with
      | |- context [as_float ?n] => destruct (as_float n); [|discriminate]
      end;
    try discriminate;
    intros [= <-]; eexists; (split; [reflexivity|]); (split; [simpl; lia|]);
    destruct v; reflexivity.
Qed.

(** X9: from a node whose polling time converts and whose position has at
    most three entries, all converting, the constructor builds the
    configuration with the given tag, that polling time, and a position
    whose leading coefficients are the entries; the coefficients past the
    last entry are never written and keep what the storage held. *)
Theorem new_SensorConfig_of_short_position
  (uninitialised : Vector3f) (t : SensorType.t) (node polling entries : Node)
  (pollingTime : Z) (xs : list float) :
  subscript node "PollingTime" = Some polling →
  as_int polling = Some pollingTime →
  subscript node "Position" = Some entries →
  as_floats (children entries) = Some xs →
  (length xs ≤ 3)%nat →
  new_SensorConfig uninitialised t node
  = Constructed {| SensorConfig.pollingTime := pollingTime;
                   SensorConfig.type := t;
                   SensorConfig.position := overwrite uninitialised xs |}.
Proof.
  intros Hp Hint He Hxs Hlen. unfold new_SensorConfig.
  rewrite Hp, Hint, He, (fill_position_short _ _ _ Hxs Hlen). reflexivity.
Qed.

(** X10: when the position of the node has more than three entries, all
    converting, the loop writes coefficient 3 of the three-coefficient
    vector and no configuration is built. *)
Theorem new_SensorConfig_of_long_position
  (uninitialised : Vector3f) (t : SensorType.t) (node polling entries : Node)
  (pollingTime : Z) (xs : list float) :
  subscript node "PollingTime" = Some polling →
  as_int polling = Some pollingTime →
  subscript node "Position" = Some entries →
  as_floats (children entries) = Some xs →
  (3 < length xs)%nat →
  new_SensorConfig uninitialised t node = IndexOutOfRange 3.
Proof.
  intros Hp Hint He Hxs Hlen. unfold new_SensorConfig.
  rewrite Hp, Hint, He, (fill_position_long _ _ _ Hxs Hlen). reflexivity.
Qed.

(** X11: the constructor builds a configuration in no other case: if it
    returns one, the polling time of the node converted, its position had at
    most three entries, all of which converted, and the configuration holds
    the tag passed, that polling time and those entries. *)
Theorem new_SensorConfig_inversion
  (uninitialised : Vector3f) (t : SensorType.t) (node : Node) (c : SensorConfig.t) :
  new_SensorConfig uninitialised t node = Constructed c →
  ∃ polling pollingTime entries xs,
    subscript node "PollingTime" = Some polling
    ∧ as_int polling = Some pollingTime
    ∧ subscript node "Position" = Some entries
    ∧ as_floats (children entries) = Some xs
    ∧ (length xs ≤ 3)%nat
    ∧ c = {| SensorConfig.pollingTime := pollingTime;
             SensorConfig.type := t;
             SensorConfig.position := overwrite uninitialised xs |}.
Proof.
  unfold new_SensorConfig.
  destruct (subscript node "PollingTime") as [polling|] eqn:Hp; [|discriminate].
  destruct (as_int polling) as [pollingTime|] eqn:Hint; [|discriminate].
  destruct (subscript node "Position") as [entries|] eqn:He; [|discriminate].
  destruct (fill_position (children entries) 0 uninitialised) as [position| |j] eqn:Hfill;
    try discriminate.
  intros [= <-]. destruct (fill_position_inversion _ _ _ Hfill) as (xs & Hxs & Hlen & ->).
  exists polling, pollingTime, entries, xs.
  repeat split; try reflexivity; assumption.
Qed.

Lemma overwrite_full (u1 u2 : Vector3f) (xs : list float) :
  length xs = 3%nat → overwrite u1 xs = overwrite u2 xs.
Proof.
  destruct xs as [|x0 [|x1 [|x2 [|x3 xs]]]]; try discriminate. reflexivity.
Qed.

Lemma overwrite_keeps_last (u : Vector3f) (xs : list float) :
  (length xs < 3)%nat → vz (overwrite u xs) = vz u.
Proof.
  destruct xs as [|x0 [|x1 [|x2 xs]]]; simpl; try reflexivity. lia.
Qed.

(** X12: with exactly three entries the configuration built does not
    depend on what the storage of the vector held; with fewer it does: two
    runs of the constructor on the same node that start from storage with
    different last coefficients build different configurations. *)
Theorem new_SensorConfig_reads_uninitialised_storage
  (u1 u2 : Vector3f) (t : SensorType.t) (node polling entries : Node)
  (pollingTime : Z) (xs : list float) :
  subscript node "PollingTime" = Some polling →
  as_int polling = Some pollingTime →
  subscript node "Position" = Some entries →
  as_floats (children entries) = Some xs →
  (length xs = 3%nat → new_SensorConfig u1 t node = new_SensorConfig u2 t node)
  ∧ ((length xs < 3)%nat → vz u1 ≠ vz u2 →
     new_SensorConfig u1 t node ≠ new_SensorConfig u2 t node).
Proof.
  intros Hp Hint He Hxs. unfold new_SensorConfig. rewrite Hp, Hint, He. split.
  - intros Hlen.
    rewrite !(fill_position_short _ _ _ Hxs) by lia.
    rewrite (overwrite_full u1 u2 xs Hlen). reflexivity.
  - intros Hlen Hne.
    rewrite !(fill_position_short _ _ _ Hxs) by lia.
    intros [= _ _ Hz]. apply Hne.
    rewrite <- (overwrite_keeps_last u1 xs Hlen), <- (overwrite_keeps_last u2 xs Hlen).
    unfold overwrite. simpl. exact Hz.
Qed.

Lemma new_SensorConfig_tag
  (uninitialised : Vector3f) (t : SensorType.t) (node : Node) (c : SensorConfig.t) :
  new_SensorConfig uninitialised t node = Constructed c → t = SensorConfig.type c.
Proof.
  unfold new_SensorConfig.
  destruct (subscript node "PollingTime") as [polling|]; [|discriminate].
  destruct (as_int polling) as [pollingTime|]; [|discriminate].
  destruct (subscript node "Position") as [entries|]; [|discriminate].
  destruct (fill_position (children entries) 0 uninitialised); try discriminate.
  intros [= <-]. reflexivity.
Qed.

(** X13: a configuration built by [GyroConfig] is tagged [Gyroscope] and
    one built by [AccelerometerConfig] is tagged [Accelerometer]; registered
    under a name, it makes [GetSensor] return a gyroscope, respectively an
    accelerometer, with its polling time and position, never the null
    pointer. *)
Theorem constructed_sensor_is_built_by_factory
  (uninitialised : Vector3f) (node : Node) (sensor : SensorConfig.t)
  (name : string) (config : Configuration) :
  sensor_spec config name = Some sensor →
  (GyroConfig uninitialised node = Constructed sensor →
   SensorConfig.type sensor = SensorType.Gyroscope
   ∧ (GetSensor name config).1
     = Returns (Some (Gyroscope (timestamp_of_int (SensorConfig.pollingTime sensor))
                        (SensorConfig.position sensor))))
  ∧ (AccelerometerConfig uninitialised node = Constructed sensor →
     SensorConfig.type sensor = SensorType.Accelerometer
     ∧ (GetSensor name config).1
       = Returns (Some (Accelerometer (timestamp_of_int (SensorConfig.pollingTime sensor))
                          (SensorConfig.position sensor)))).
Proof.
  intros Hspec. rewrite GetSensor_result, Hspec.
  split; intros Hnew;
    destruct (new_SensorConfig_tag _ _ _ _ Hnew); split; reflexivity.
Qed.
End ConstructorLemmas.

Section ExtraWitnesses.

Lemma factory_call_frame_witness :
  sensorConfigs (GetSensor "Ghost" simulator_yaml).2 !! "Gyro1"%string = Some (Some Gyro1)
  ∧ actuatorConfigs (GetActuator "Ghost" simulator_yaml).2 !! "ReactionWheel1"%string
    = Some (Some (ActuatorConfig.ReactionWheel ActuatorType.ReactionWheel ReactionWheel1)).
Proof.
  destruct (factory_call_frame "Ghost" simulator_yaml) as [[Hs _] [Ha _]].
  split.
  - rewrite (Hs "Gyro1"%string) by discriminate. reflexivity.
  - rewrite (Ha "ReactionWheel1"%string) by discriminate. reflexivity.
Defined.

Lemma factory_fatal_exactly_on_mistagged_object_witness :
  actuator_spec mistagged_configuration "Wheel"
  = Some (ActuatorConfig.Base ActuatorType.ReactionWheel)
  ∧ fatal (GetActuator "Wheel" mistagged_configuration).1 = true.
Proof.
  split; [reflexivity|].
  apply (factory_fatal_exactly_on_mistagged_object "Wheel" mistagged_configuration).
  reflexivity.
Defined.

Lemma new_SensorConfig_of_short_position_witness :
  new_SensorConfig ones3 SensorType.Gyroscope short_node
  = Constructed {| SensorConfig.pollingTime := 10;
                   SensorConfig.type := SensorType.Gyroscope;
                   SensorConfig.position :=
                     {| vx := Float32.lit 1; vy := Float32.lit 2; vz := vz ones3 |} |}.
Proof.
  apply (new_SensorConfig_of_short_position ones3 SensorType.Gyroscope short_node
           (YInt 10) (YSeq [YInt 1; YInt 2]) 10 [Float32.lit 1; Float32.lit 2]);
    try reflexivity.
  simpl. lia.
Defined.

Lemma new_SensorConfig_of_long_position_witness :
  new_SensorConfig ones3 SensorType.Gyroscope long_node = IndexOutOfRange 3.
Proof.
  apply (new_SensorConfig_of_long_position ones3 SensorType.Gyroscope long_node
           (YInt 10) (YSeq [YInt 1; YInt 2; YInt 3; YInt 4]) 10
           [Float32.lit 1; Float32.lit 2; Float32.lit 3; Float32.lit 4]);
    try reflexivity.
  simpl. lia.
Defined.

Lemma new_SensorConfig_inversion_witness :
  new_SensorConfig ones3 SensorType.Gyroscope Gyro1_node = Constructed Gyro1
  ∧ ∃ polling pollingTime entries xs,
      subscript Gyro1_node "PollingTime" = Some polling
      ∧ as_int polling = Some pollingTime
      ∧ subscript Gyro1_node "Position" = Some entries
      ∧ as_floats (children entries) = Some xs
      ∧ (length xs ≤ 3)%nat
      ∧ Gyro1 = {| SensorConfig.pollingTime := pollingTime;
                   SensorConfig.type := SensorType.Gyroscope;
                   SensorConfig.position := overwrite ones3 xs |}.
Proof.
  split; [reflexivity|].
  apply (new_SensorConfig_inversion ones3 SensorType.Gyroscope Gyro1_node Gyro1).
  reflexivity.
Defined.

Lemma new_SensorConfig_reads_uninitialised_storage_witness :
  new_SensorConfig zero3 SensorType.Gyroscope Gyro1_node
  = new_SensorConfig ones3 SensorType.Gyroscope Gyro1_node
  ∧ new_SensorConfig zero3 SensorType.Gyroscope short_node
    ≠ new_SensorConfig ones3 SensorType.Gyroscope short_node.
Proof.
  split.
  - apply (new_SensorConfig_reads_uninitialised_storage zero3 ones3 SensorType.Gyroscope
             Gyro1_node (YInt 10) (YSeq [YInt 0; YInt 0; YInt 0]) 10
             [Float32.lit 0; Float32.lit 0; Float32.lit 0]); reflexivity.
  - apply (new_SensorConfig_reads_uninitialised_storage zero3 ones3 SensorType.Gyroscope
             short_node (YInt 10) (YSeq [YInt 1; YInt 2]) 10
             [Float32.lit 1; Float32.lit 2]); try reflexivity.
    + simpl. lia.
    + discriminate.
Defined.

Lemma constructed_sensor_is_built_by_factory_witness :
  GyroConfig ones3 Gyro1_node = Constructed Gyro1
  ∧ sensor_spec simulator_yaml "Gyro1" = Some Gyro1
  ∧ (GetSensor "Gyro1" simulator_yaml).1
    = Returns (Some (Gyroscope (timestamp_of_int 10) zero3)).
Proof.
  split; [reflexivity|]. split; [reflexivity|].
  destruct (constructed_sensor_is_built_by_factory ones3 Gyro1_node Gyro1 "Gyro1"
              simulator_yaml eq_refl) as [Hgyro _].
  apply Hgyro. reflexivity.
Defined.
End ExtraWitnesses.
